(** * Yelp business search loader (kwk/yelp_business_search.py)

    A shallow embedding of the loader script: the URL builder, the count
    prober, the location expander, the paginated fetcher and the driver
    loop, followed by the properties claimed for them.

    Python integers are unbounded, so counters are [Z].  A Python [str]
    is a [string] (its UTF-8 bytes).  The network, the clock and the
    data store are the script's environment: they are threaded through
    explicitly as a state, and an uncaught Python exception is the
    [Raise] outcome of a computation. *)

From Stdlib Require Import ZArith String Ascii List Bool Lia DecimalString.
Import ListNotations.

Local Open Scope string_scope.
Local Open Scope list_scope.
Local Open Scope Z_scope.

Set Warnings "-register-all".

(* ================================================================== *)
(** ** Python values, exceptions and strings *)

Module Py.

(** The exceptions the script can meet. *)
Inductive exn : Type :=
| KeyError (key : string)
| IndexError
| TypeError
| ValueError (msg : string)
| JSONDecodeError
| DatabaseError (msg : string).

(** Outcome of evaluating a Python expression or statement. *)
Inductive result (A : Type) : Type :=
| Ok (a : A)
| Raise (e : exn).
Arguments Ok {A} a.
Arguments Raise {A} e.

(** [str(n)] and [f"{n}"] for an [int]. *)
Definition str_of_int (n : Z) : string :=
  NilZero.string_of_int (Z.to_int n).

(** [str(b)] for a [bool]. *)
Definition str_of_bool (b : bool) : string :=
  if b then "True" else "False".

(** Truthiness of an optional string: [None] and [''] are falsy. *)
Definition truthy (term : option string) : bool :=
  match term with
  | None => false
  | Some s => negb (String.eqb s "")
  end.

(** [sep.join(parts)] *)
Fixpoint join (sep : string) (parts : list string) : string :=
  match parts with
  | [] => ""
  | [p] => p
  | p :: rest => p ++ sep ++ join sep rest
  end.

(** [s.split(sep)] for a non-empty [sep]: [skip] counts the characters
    of a separator that has just been recognised and is being consumed,
    [cur] is the segment read so far. *)
Fixpoint split_from (sep : string) (skip : nat) (s cur : string)
  : list string :=
  match s with
  | EmptyString => [cur]
  | String c s' =>
      match skip with
      | S k => split_from sep k s' cur
      | O =>
          if String.prefix sep s
          then cur :: split_from sep (String.length sep - 1) s' ""
          else split_from sep 0 s' (cur ++ String c "")
      end
  end.

Definition split (sep s : string) : list string := split_from sep 0 s "".

(** [l[i]] on a list. *)
Definition index {A : Type} (l : list A) (i : nat) : result A :=
  match nth_error l i with
  | Some a => Ok a
  | None => Raise IndexError
  end.

End Py.
Import Py.

(* ================================================================== *)
(** ** urllib.parse.quote_plus *)

Module Urllib.

Definition between (lo hi c : ascii) : bool :=
  (N_of_ascii lo <=? N_of_ascii c)%N && (N_of_ascii c <=? N_of_ascii hi)%N.

(** Letters, digits and [_.-~] are never quoted. *)
Definition always_safe (c : ascii) : bool :=
  between "A" "Z" c || between "a" "z" c || between "0" "9" c
  || Ascii.eqb c "_" || Ascii.eqb c "." || Ascii.eqb c "-"
  || Ascii.eqb c "~".

Definition hex_digit (n : N) : ascii :=
  match String.get (N.to_nat n) "0123456789ABCDEF" with
  | Some d => d
  | None => "0"%char
  end.

Definition quote_byte (c : ascii) : string :=
  if always_safe c then String c ""
  else if Ascii.eqb c " " then "+"
  else String "%" (String (hex_digit (N_of_ascii c / 16))
                     (String (hex_digit (N_of_ascii c mod 16)) "")).

Fixpoint quote_plus (s : string) : string :=
  match s with
  | EmptyString => ""
  | String c s' => quote_byte c ++ quote_plus s'
  end.

End Urllib.

(* ================================================================== *)
(** ** JSON documents and HTTP responses *)

(** A decoded JSON value.  A float is kept as the text Python prints for
    it; an object keeps its keys in document order. *)
Inductive json : Type :=
| JNull
| JBool (b : bool)
| JInt (z : Z)
| JFloat (repr : string)
| JStr (s : string)
| JArr (items : list json)
| JObj (fields : list (string * json)).

(** One business of a result page: a JSON object. *)
Definition BusinessRecord : Type := list (string * json).

(** [response.text], represented by what [json.loads] makes of it: a
    JSON document, or text that is not JSON.  [SearchBody total
    businesses] is the document the API gives for a search: an object
    whose [total] is that integer and whose [businesses] is that array
    of objects, whatever else it holds.  [OtherJson v] is any document
    [v]: the API's error object, an object with a [total] only, an
    array.  A search result given as [OtherJson] is read like the
    [SearchBody] it is. *)
Inductive Body : Type :=
| SearchBody (total : Z) (businesses : list BusinessRecord)
| OtherJson (v : json)
| NotJson (raw : string).

Record Response : Type := mkResponse {
  status_code : Z;
  reason : string;
  text : Body
}.

(** [json.loads(response.text)] *)
Definition json_loads (b : Body) : result Body :=
  match b with
  | NotJson _ => Raise JSONDecodeError
  | _ => Ok b
  end.

(** The value of [key] in a decoded object, if it has the key. *)
Fixpoint json_field (key : string) (fields : list (string * json))
  : option json :=
  match fields with
  | [] => None
  | (k, v) :: rest =>
      if String.eqb key k then Some v else json_field key rest
  end.

(** The items of a decoded array as business records, when each of them
    is an object. *)
Fixpoint records_of (items : list json) : option (list BusinessRecord) :=
  match items with
  | [] => Some []
  | JObj fields :: rest =>
      match records_of rest with
      | Some records => Some (fields :: records)
      | None => None
      end
  | _ :: _ => None
  end.

(** [results_dict['total']]: the value of the key in an object, KeyError
    in an object without it, TypeError in a document that is not an
    object.  The counts of the script are integers here ([True] and
    [False] are the integers 1 and 0 in Python).  A [total] that is
    something else (a string, a null, an array, an object, a float) is
    outside the documents of the API; it is given as the TypeError that
    the first comparison with it raises (lines 70, 98, 126), which a
    float would not raise. *)
Definition dict_total (results_dict : Body) : result Z :=
  match results_dict with
  | SearchBody total _ => Ok total
  | OtherJson (JObj fields) =>
      match json_field "total" fields with
      | Some (JInt total) => Ok total
      | Some (JBool b) => Ok (if b then 1 else 0)
      | Some _ => Raise TypeError
      | None => Raise (KeyError "total")
      end
  | _ => Raise TypeError
  end.

(** [results_dict['businesses']]: the value of the key in an object.
    The script takes its length and hands it to pandas as a list of
    records; a value that is not an array of objects is outside the
    documents of the API and is given as TypeError. *)
Definition dict_businesses (results_dict : Body)
  : result (list BusinessRecord) :=
  match results_dict with
  | SearchBody _ businesses => Ok businesses
  | OtherJson (JObj fields) =>
      match json_field "businesses" fields with
      | Some (JArr items) =>
          match records_of items with
          | Some businesses => Ok businesses
          | None => Raise TypeError
          end
      | Some _ => Raise TypeError
      | None => Raise (KeyError "businesses")
      end
  | _ => Raise TypeError
  end.

(* ================================================================== *)
(** ** The environment: network and clock *)

(** The server is the sequence of responses it will give: the [n]-th
    request of a run is answered by [responses n], whatever its status.
    [exchanges] is the log of requests made so far with their answers,
    latest first.  A request that gets no response at all (the network is
    down) is not part of this model. *)
Record Net : Type := mkNet {
  responses : nat -> Response;
  exchanges : list (string * Response);
  utc_now : Z
}.

(** Computations that talk to the network and may raise. *)
Definition M (A : Type) : Type := Net -> result A * Net.

Definition ret {A : Type} (a : A) : M A := fun net => (Ok a, net).

Definition bind {A B : Type} (m : M A) (k : A -> M B) : M B :=
  fun net =>
    match m net with
    | (Ok a, net') => k a net'
    | (Raise e, net') => (Raise e, net')
    end.

Definition lift {A : Type} (r : result A) : M A := fun net => (r, net).

Notation "x <- m ;; k" := (bind m (fun x => k))
  (at level 61, m at next level, right associativity).

(** Sequencing of steps that may raise but do not touch the network. *)
Definition and_then {A B : Type} (r : result A) (k : A -> result B)
  : result B :=
  match r with
  | Ok a => k a
  | Raise e => Raise e
  end.

Notation "x <~ r ;; k" := (and_then r (fun x => k))
  (at level 61, r at next level, right associativity).

(** The response the server gives to the next request. *)
Definition next_response (net : Net) : Response :=
  responses net (length (exchanges net)).

(** The network once the request for [url] has been answered. *)
Definition answered (url : string) (net : Net) : Net :=
  {| responses := responses net;
     exchanges := (url, next_response net) :: exchanges net;
     utc_now := utc_now net |}.

(** [requests.get(url=url, headers=HEADERS)] *)
Definition requests_get (url : string) : M Response :=
  fun net => (Ok (next_response net), answered url net).

(** [pandas.Timestamp.utcnow()] *)
Definition timestamp_utcnow : M Z := fun net => (Ok (utc_now net), net).

(* ================================================================== *)
(** ** Module constants *)

Definition DESTINATION_SCHEMA : string := "yelp".
Definition DESTINATION_TABLE : string := "business_search_results".
Definition YELP_URL : string := "https://api.yelp.com/v3/businesses/search?".
Definition JSON_COLUMNS : list string :=
  ["categories"; "coordinates"; "transactions"; "location"].

(* ================================================================== *)
(** ** URL builder and count prober *)

(** [yelp_search_url(location, term)] *)
Definition yelp_search_url (location : string) (term : option string)
  : string :=
  let term_param :=
    match term with
    | Some t =>
        if truthy term then ("&term=" ++ Urllib.quote_plus t)%string else ""
    | None => ""
    end in
  (YELP_URL ++ term_param ++ "&location=" ++ Urllib.quote_plus location
     ++ "&sort=distance")%string.

(** [yelp_expected_result_count(location, term)] *)
Definition yelp_expected_result_count (location : string)
  (term : option string) : M Z :=
  let search_url := yelp_search_url location term in
  response <- requests_get search_url ;;
  if status_code response =? 200 then
    lift (results_dict <~ json_loads (text response) ;;
          total_count <~ dict_total results_dict ;;
          Ok total_count)
  else
    ret 0.

(* ================================================================== *)
(** ** pandas data frames *)

Module Pandas.

(** What a cell of a frame holds: an object decoded from a response, a
    missing value, a Python [str] made by the script, or a timestamp. *)
Inductive Cell : Type :=
| CJson (v : json)
| CNaN
| CStr (s : string)
| CTimestamp (t : Z).

(** A frame is its columns, in order, each with one cell per row. *)
Record DataFrame : Type := mkFrame {
  nrows : nat;
  columns : list (string * list Cell)
}.

(** [pandas.DataFrame()] *)
Definition empty_frame : DataFrame := {| nrows := 0; columns := [] |}.

Definition column_names (df : DataFrame) : list string :=
  map fst (columns df).

Definition mem (name : string) (names : list string) : bool :=
  existsb (String.eqb name) names.

Fixpoint lookup {A : Type} (name : string) (l : list (string * A))
  : option A :=
  match l with
  | [] => None
  | (k, v) :: rest => if String.eqb name k then Some v else lookup name rest
  end.

(** The cells of column [name], if the frame has it. *)
Definition get_column (name : string) (df : DataFrame)
  : option (list Cell) :=
  lookup name (columns df).

Fixpoint replace (name : string) (cells : list Cell)
  (cols : list (string * list Cell)) : list (string * list Cell) :=
  match cols with
  | [] => []
  | (k, v) :: rest =>
      if String.eqb name k then (k, cells) :: rest
      else (k, v) :: replace name cells rest
  end.

(** [df[name] = cells]: an existing column is overwritten in place, a
    new one is added last. *)
Definition set_column (name : string) (cells : list Cell)
  (df : DataFrame) : DataFrame :=
  {| nrows := nrows df;
     columns :=
       if mem name (column_names df)
       then replace name cells (columns df)
       else columns df ++ [(name, cells)] |}.

(** [df[name] = value] for a scalar: the value in every row. *)
Definition set_scalar (name : string) (value : Cell) (df : DataFrame)
  : DataFrame :=
  set_column name (repeat value (nrows df)) df.

(** Names in order of first appearance. *)
Fixpoint add_names (seen new : list string) : list string :=
  match new with
  | [] => seen
  | k :: rest =>
      if mem k seen then add_names seen rest
      else add_names (seen ++ [k]) rest
  end.

Definition union_names (ll : list (list string)) : list string :=
  fold_left add_names ll [].

(** [pandas.DataFrame.from_records(records)] for a list of dicts: one
    row per record, one column per key; a record without the key has a
    missing value there.  A cell is the value as it was decoded.  pandas
    goes on to give every column a type, and a column of numbers in
    which a value is missing is held as floats: an integer of such a
    column is then the float nearest to it.  That conversion is not
    modelled; arrays, objects and strings are never converted. *)
Definition from_records (records : list BusinessRecord) : DataFrame :=
  {| nrows := length records;
     columns :=
       map (fun k =>
              (k, map (fun r => match lookup k r with
                                | Some v => CJson v
                                | None => CNaN
                                end) records))
           (union_names (map (map fst) records)) |}.

(** [pandas.concat(frames, ignore_index=True)]: the rows of the frames
    one after the other under the union of their columns.  There must be
    a frame to concatenate. *)
Definition concat (frames : list DataFrame) : result DataFrame :=
  match frames with
  | [] => Raise (ValueError "No objects to concatenate")
  | _ =>
      Ok {| nrows := fold_right (fun df n => (nrows df + n)%nat) 0%nat frames;
            columns :=
              map (fun k =>
                     (k, flat_map
                           (fun df => match get_column k df with
                                      | Some cells => cells
                                      | None => repeat CNaN (nrows df)
                                      end) frames))
                  (union_names (map column_names frames)) |}
  end.

(** [df[names]]: every name must be a column. *)
Fixpoint select (names : list string) (df : DataFrame)
  : result (list (string * list Cell)) :=
  match names with
  | [] => Ok []
  | k :: rest =>
      match get_column k df with
      | None => Raise (KeyError k)
      | Some cells =>
          match select rest df with
          | Ok sel => Ok ((k, cells) :: sel)
          | Raise e => Raise e
          end
      end
  end.

(** [df[names] = sub] where [sub] has those columns. *)
Definition assign (sub : list (string * list Cell)) (df : DataFrame)
  : DataFrame :=
  fold_left (fun d kc => set_column (fst kc) (snd kc) d) sub df.

(** [df.empty]: some axis has length zero. *)
Definition empty (df : DataFrame) : bool :=
  (nrows df =? 0)%nat || (length (columns df) =? 0)%nat.

(** [len(df)] *)
Definition len (df : DataFrame) : nat := nrows df.

End Pandas.
Import Pandas.

(* ================================================================== *)
(** ** Postal codes (the zipcodes package) *)

Record Zipcode : Type := mkZipcode {
  zip_code : string;
  zip_city : string;
  zip_state : string
}.

(** [zipcodes.filter_by(city=city, state=state)] over the package's table. *)
Definition filter_by (zip_db : list Zipcode) (city state : string)
  : list Zipcode :=
  filter (fun z => String.eqb (zip_city z) city
                   && String.eqb (zip_state z) state) zip_db.

(* ================================================================== *)
(** ** Location expander *)

Section Expander.

(** The table of the zipcodes package. *)
Variable zip_db : list Zipcode.

(** [yelp_city_locations(city, term)] *)
Definition yelp_city_locations (city : string) (term : option string)
  : M (list string * Z) :=
  expected_results <- yelp_expected_result_count city term ;;
  if expected_results >? 1000 then
    city_name <- lift (index (split ", " city) 0) ;;
    state <- lift (index (split ", " city) 1) ;;
    let filtered_zipcodes := filter_by zip_db city_name state in
    let city_zips := map zip_code filtered_zipcodes in
    let locations :=
      map (fun zip_code => (city ++ " " ++ zip_code)%string) city_zips in
    ret (locations, expected_results)
  else
    ret ([city], expected_results).

End Expander.

(* ================================================================== *)
(** ** Paginated fetcher *)

Definition MAX_LIMIT : Z := 50.
Definition MAX_RESULTS : Z := 1000.

(** The variables of the pagination loop. *)
Record LoopState : Type := mkLoop {
  running_count : Z;
  limit : Z;
  total_count : Z;
  page_dfs : list DataFrame
}.

(** Lines 93-96: the state before the first iteration. *)
Definition initial_state : LoopState :=
  let running_count := 0 in
  let limit := MAX_LIMIT in
  {| running_count := running_count;
     limit := limit;
     total_count := running_count + limit;
     page_dfs := [] |}.

(** The condition of the [while]. *)
Definition loop_guard (st : LoopState) : bool :=
  (running_count st + limit st <=? MAX_RESULTS)
  && (running_count st + limit st <=? total_count st)
  && (limit st >? 0).

(** [f"{search_url}&limit={limit}&offset={running_count}"] *)
Definition page_url_of (search_url : string) (limit running_count : Z)
  : string :=
  (search_url ++ "&limit=" ++ str_of_int limit
     ++ "&offset=" ++ str_of_int running_count)%string.

(** The next page size, line 126. *)
Definition next_limit (running_count total_count : Z) : Z :=
  if running_count + MAX_LIMIT <=? Z.min total_count MAX_RESULTS
  then MAX_LIMIT
  else Z.min total_count MAX_RESULTS - running_count.

(** Lines 107-131: what an iteration does with the response to its
    request (the progress messages are left out, the decoding of the
    error body for its message is not). *)
Definition handle_response (page_url : string) (response : Response)
  (st : LoopState) : result LoopState :=
  if status_code response =? 200 then
    results_dict <~ json_loads (text response) ;;
    total_count <~ dict_total results_dict ;;
    page_results <~ dict_businesses results_dict ;;
    let page_count := Z.of_nat (length page_results) in
    if page_count =? 0 then
      Ok {| running_count := running_count st;
            limit := 0;
            total_count := total_count;
            page_dfs := page_dfs st |}
    else
      let running_count := running_count st + page_count in
      let results_df := from_records page_results in
      let results_df := set_scalar "_page_url" (CStr page_url) results_df in
      Ok {| running_count := running_count;
            limit := next_limit running_count total_count;
            total_count := total_count;
            page_dfs := page_dfs st ++ [results_df] |}
  else
    _ <~ json_loads (text response) ;;
    Ok {| running_count := running_count st;
          limit := 0;
          total_count := total_count st;
          page_dfs := page_dfs st |}.

(** One iteration of the loop, lines 99-131. *)
Definition loop_body (search_url : string) (st : LoopState) : M LoopState :=
  let page_url := page_url_of search_url (limit st) (running_count st) in
  response <- requests_get page_url ;;
  lift (handle_response page_url response st).

(** The [while] loop, run for at most [fuel] iterations: the state in
    which the loop stands after them. *)
Fixpoint fetch_pages (fuel : nat) (search_url : string) (st : LoopState)
  : M LoopState :=
  match fuel with
  | O => ret st
  | S fuel' =>
      if loop_guard st then
        st' <- loop_body search_url st ;;
        fetch_pages fuel' search_url st'
      else ret st
  end.

(** No run of the loop has more iterations than this (theorem
    [fetch_pages_exits] below), so that [fetch_pages PAGE_BOUND] is the
    loop run to its end. *)
Definition PAGE_BOUND : nat := 1001.

(** Lines 133-139. *)
Definition is_complete_of (st : LoopState) : bool :=
  if running_count st <? total_count st then false else true.

(** [term if term else ''] *)
Definition term_or_empty (term : option string) : string :=
  match term with
  | Some t => if truthy term then t else ""
  | None => ""
  end.

Section Fetcher.

(** [json.dumps], applied to a cell. *)
Variable json_dumps : Cell -> string.

(** Line 147: the JSON columns, serialised, put back in place. *)
Definition coerce_json_columns (search_results : DataFrame)
  : result DataFrame :=
  match select JSON_COLUMNS search_results with
  | Raise e => Raise e
  | Ok sub =>
      let dumped :=
        map (fun kc => (fst kc, map (fun c => CStr (json_dumps c)) (snd kc)))
            sub in
      Ok (assign dumped search_results)
  end.

(** Lines 141-155: from the pages to the table. *)
Definition assemble (location : string) (term : option string)
  (st : LoopState) : M DataFrame :=
  let is_complete := is_complete_of st in
  search_results <-
    lift (match page_dfs st with
          | [] => Ok empty_frame
          | _ => concat (page_dfs st)
          end) ;;
  search_results <- lift (coerce_json_columns search_results) ;;
  loaded_at <- timestamp_utcnow ;;
  let search_results :=
    set_scalar "_loaded_at" (CTimestamp loaded_at) search_results in
  let search_results :=
    set_scalar "_location" (CStr location) search_results in
  let search_results :=
    set_scalar "_term" (CStr (term_or_empty term)) search_results in
  let search_results :=
    set_scalar "_is_complete" (CStr (str_of_bool is_complete))
      search_results in
  ret search_results.

(** [yelp_location_search(location, term)] *)
Definition yelp_location_search (location : string) (term : option string)
  : M DataFrame :=
  let search_url := yelp_search_url location term in
  st <- fetch_pages PAGE_BOUND search_url initial_state ;;
  assemble location term st.

End Fetcher.

(* ================================================================== *)
(** ** The data store *)

(** What the driver needs of the [con] it hands to pandas: a query gives
    a frame or raises, a write leaves a store behind and may raise. *)
Class Connection (Con : Type) : Type := {
  read_sql : string -> Con -> result DataFrame;
  to_sql : DataFrame -> string -> string -> Con -> result unit * Con
}.

(** The placeholder of the script.  pandas can do nothing with it: every
    query and every write raises. *)
Record DummyConnection : Type := mkDummy {
  connection : string;
  creds : string
}.

#[global] Instance dummy_connection : Connection DummyConnection := {
  read_sql := fun _ _ => Raise (DatabaseError "unsupported connection");
  to_sql := fun _ _ _ con =>
    (Raise (DatabaseError "unsupported connection"), con)
}.

(* ================================================================== *)
(** ** Driver *)

Definition newline : string := String (ascii_of_nat 10) "".

(** The query of lines 192-197. *)
Definition loaded_query (location term_filter : string) : string :=
  (newline
   ++ "            SELECT DISTINCT 1" ++ newline
   ++ "            FROM " ++ DESTINATION_SCHEMA ++ "." ++ DESTINATION_TABLE
   ++ newline
   ++ "            WHERE _location = '" ++ location ++ "'" ++ newline
   ++ "            AND _term = '" ++ term_filter ++ "'" ++ newline
   ++ "            ")%string.

Section Driver.

Variable zip_db : list Zipcode.
Variable json_dumps : Cell -> string.
Context {Con : Type} `{Connection Con}.

(** The state of a run: the network and the store. *)
Definition World : Type := (Net * Con)%type.

(** Lines 204-215: fetch, then try to write; a failed write is printed
    and forgotten. *)
Definition fetch_and_append (location : string) (term : option string)
  (w : World) : result unit * World :=
  match yelp_location_search json_dumps location term (fst w) with
  | (Raise e, net') => (Raise e, (net', snd w))
  | (Ok yelp_data, net') =>
      let (_, store') :=
        to_sql yelp_data DESTINATION_TABLE DESTINATION_SCHEMA (snd w) in
      (Ok tt, (net', store'))
  end.

(** Lines 186-215: the body of the loop over locations. *)
Definition process_location (location : string) (term : option string)
  (w : World) : result unit * World :=
  let term_filter := term_or_empty term in
  let loaded_data :=
    match read_sql (loaded_query location term_filter) (snd w) with
    | Ok df => df
    | Raise _ => empty_frame
    end in
  if empty loaded_data then fetch_and_append location term w
  else (Ok tt, w).

(** A [for] loop whose body may raise. *)
Fixpoint for_each {A : Type} (l : list A)
  (body : A -> World -> result unit * World) (w : World)
  : result unit * World :=
  match l with
  | [] => (Ok tt, w)
  | a :: rest =>
      match body a w with
      | (Ok _, w') => for_each rest body w'
      | (Raise e, w') => (Raise e, w')
      end
  end.

(** Lines 181-215: one city and one term. *)
Definition process_city_term (city : string) (term : option string)
  (w : World) : result unit * World :=
  match yelp_city_locations zip_db city term (fst w) with
  | (Raise e, net') => (Raise e, (net', snd w))
  | (Ok (locations, _), net') =>
      for_each locations (fun location => process_location location term)
        (net', snd w)
  end.

(** Lines 166-172. *)
Definition terms_of (black_owned all : bool) : list (option string) :=
  (if black_owned then [Some "Black owned"] else [])
  ++ (if all then [None] else []).

(** The script, from its parsed arguments. *)
Definition main (args_cities : list string) (black_owned all : bool)
  (w : World) : result unit * World :=
  let terms := terms_of black_owned all in
  let cities := split ";" (join " " args_cities) in
  for_each cities
    (fun city => for_each terms (fun term => process_city_term city term))
    w.

End Driver.

(* ================================================================== *)
(** ** Sample data for the examples *)

Module Sample.

Definition dquote : string := String (ascii_of_nat 34) "".

Definition quoted (s : string) : string := (dquote ++ s ++ dquote)%string.

(** [json.dumps] with its default separators, on documents whose
    strings need no escaping.  Only cells decoded from a response, or
    missing, are ever serialised. *)
Fixpoint dumps (v : json) : string :=
  match v with
  | JNull => "null"
  | JBool true => "true"
  | JBool false => "false"
  | JInt z => str_of_int z
  | JFloat repr => repr
  | JStr s => quoted s
  | JArr items => ("[" ++ join ", " (map dumps items) ++ "]")%string
  | JObj fields =>
      ("{" ++ join ", "
                (map (fun kv => match kv with
                                | (k, x) => (quoted k ++ ": " ++ dumps x)%string
                                end) fields)
           ++ "}")%string
  end.

Definition json_dumps (c : Cell) : string :=
  match c with
  | CJson v => dumps v
  | CNaN => "NaN"
  | CStr s => quoted s
  | CTimestamp t => str_of_int t
  end.

(** A business as the API returns it, cut down to a few fields. *)
Definition business (id : string) : BusinessRecord :=
  [ ("id", JStr id);
    ("categories", JArr [JObj [("alias", JStr "cafes")]]);
    ("coordinates",
      JObj [("latitude", JFloat "30.27"); ("longitude", JFloat "-97.74")]);
    ("transactions", JArr [JStr "delivery"]);
    ("location", JObj [("city", JStr "Austin"); ("zip_code", JStr "78701")]) ].

Definition page (total : Z) (n : nat) : Response :=
  {| status_code := 200; reason := "OK";
     text := SearchBody total (repeat (business "b") n) |}.

Definition server_error : Response :=
  {| status_code := 500; reason := "Internal Server Error";
     text := OtherJson (JObj [("error", JObj [("code", JStr "INTERNAL_ERROR")])]) |}.

Definition net_of (responses : nat -> Response) : Net :=
  {| responses := responses; exchanges := []; utc_now := 1700000000 |}.

(** One page of 30 businesses, total 30. *)
Definition thirty : Net := net_of (fun _ => page 30 30).

(** 50 of 80, then an empty page. *)
Definition fifty_then_nothing : Net :=
  net_of (fun n => match n with O => page 80 50 | _ => page 80 0 end).

(** 50 of 80, then 30 of what has become 60. *)
Definition shrinking : Net :=
  net_of (fun n => match n with O => page 80 50 | _ => page 60 30 end).

(** 1500 results, always full pages. *)
Definition over_cap : Net := net_of (fun _ => page 1500 50).

(** The server fails at once. *)
Definition failing : Net := net_of (fun _ => server_error).

(** A body that holds a total and nothing else. *)
Definition count_only : Net :=
  net_of (fun _ => {| status_code := 200; reason := "OK";
                      text := OtherJson (JObj [("total", JInt 30)]) |}).

(** An empty first page although 80 results are announced. *)
Definition nothing_of_eighty : Net := net_of (fun _ => page 80 0).

(** The table of the search for all businesses of Austin on [thirty]. *)
Definition thirty_table : DataFrame :=
  match fst (yelp_location_search json_dumps "Austin, TX" None thirty) with
  | Ok df => df
  | Raise _ => empty_frame
  end.

(** The table of the search for the Black owned ones. *)
Definition black_owned_table : DataFrame :=
  match fst (yelp_location_search json_dumps "Austin, TX"
               (Some "Black owned") thirty) with
  | Ok df => df
  | Raise _ => empty_frame
  end.

Definition zip_db : list Zipcode :=
  [ mkZipcode "62701" "Springfield" "IL";
    mkZipcode "62702" "Springfield" "IL";
    mkZipcode "65801" "Springfield" "MO";
    mkZipcode "60601" "Chicago" "IL" ].

End Sample.

(* ================================================================== *)
(** ** Vocabulary of the properties *)

(** The search result a body holds, if it is one: its integer total and
    its businesses. *)
Definition search_result (b : Body) : option (Z * list BusinessRecord) :=
  match b with
  | SearchBody total businesses => Some (total, businesses)
  | OtherJson (JObj fields) =>
      match json_field "total" fields, json_field "businesses" fields with
      | Some (JInt total), Some (JArr items) =>
          match records_of items with
          | Some businesses => Some (total, businesses)
          | None => None
          end
      | Some (JBool b), Some (JArr items) =>
          match records_of items with
          | Some businesses => Some (if b then 1 else 0, businesses)
          | None => None
          end
      | _, _ => None
      end
  | _ => None
  end.

(** The decoded body is an object whose [total] field is the integer
    [total]: a search result, or any other object with that field. *)
Definition has_total (b : Body) (total : Z) : Prop :=
  (exists businesses, b = SearchBody total businesses)
  \/ (exists fields,
        b = OtherJson (JObj fields)
        /\ json_field "total" fields = Some (JInt total)).

(** What an iteration that does not raise makes of the state. *)
Inductive handled (page_url : string) (response : Response)
  (st : LoopState) : LoopState -> Prop :=
| handled_error :
    status_code response <> 200 ->
    handled page_url response st
      {| running_count := running_count st; limit := 0;
         total_count := total_count st; page_dfs := page_dfs st |}
| handled_empty total :
    status_code response = 200 ->
    search_result (text response) = Some (total, []) ->
    handled page_url response st
      {| running_count := running_count st; limit := 0;
         total_count := total; page_dfs := page_dfs st |}
| handled_page total businesses :
    status_code response = 200 ->
    search_result (text response) = Some (total, businesses) ->
    businesses <> [] ->
    handled page_url response st
      {| running_count := running_count st + Z.of_nat (length businesses);
         limit := next_limit
                    (running_count st + Z.of_nat (length businesses)) total;
         total_count := total;
         page_dfs := page_dfs st
                     ++ [set_scalar "_page_url" (CStr page_url)
                           (from_records businesses)] |}.

(** A page request made in a state in which the loop condition holds,
    within the limits of the API. *)
Definition request_in_bounds (search_url url : string) : Prop :=
  exists st,
    url = page_url_of search_url (limit st) (running_count st)
    /\ loop_guard st = true
    /\ 0 < limit st <= MAX_LIMIT
    /\ 0 <= running_count st
    /\ running_count st + limit st <= MAX_RESULTS.

(** The answer to a request for [limit] results is a good page: HTTP 200
    with at least one and at most [limit] businesses. *)
Definition good_page (limit : Z) (response : Response) : Prop :=
  status_code response = 200
  /\ exists total businesses,
       text response = SearchBody total businesses
       /\ 0 < Z.of_nat (length businesses) <= limit.

Definition good_pageb (limit : Z) (response : Response) : bool :=
  (status_code response =? 200)
  && match text response with
     | SearchBody _ businesses =>
         (0 <? Z.of_nat (length businesses))
         && (Z.of_nat (length businesses) <=? limit)
     | _ => false
     end.

(** Every request the loop makes from [st] on is answered by a good page:
    whenever the loop stands in a state [st'] after some iterations and
    goes on, the response to its next request is good for its limit. *)
Definition pages_good_from (search_url : string) (st : LoopState)
  (net : Net) : Prop :=
  forall k st' net',
    fetch_pages k search_url st net = (Ok st', net') ->
    loop_guard st' = true ->
    good_page (limit st') (next_response net').

Definition every_page_good (search_url : string) (net : Net) : Prop :=
  pages_good_from search_url initial_state net.

(** The same, decided on a run that is known to stop within [n]
    iterations. *)
Definition prefix_good (search_url : string) (net : Net) (k : nat) : bool :=
  match fetch_pages k search_url initial_state net with
  | (Ok st, net') =>
      implb (loop_guard st) (good_pageb (limit st) (next_response net'))
  | (Raise _, _) => true
  end.

Definition stopped_after (search_url : string) (net : Net) (n : nat) : bool :=
  match fetch_pages n search_url initial_state net with
  | (Ok st, _) => negb (loop_guard st)
  | (Raise _, _) => true
  end.

Definition every_page_goodb (search_url : string) (net : Net) (n : nat)
  : bool :=
  forallb (prefix_good search_url net) (seq 0 (S n))
  && stopped_after search_url net n.

(** What the loop keeps true between iterations when pages are good. *)
Definition paging_invariant (st : LoopState) : Prop :=
  limit st = next_limit (running_count st) (total_count st)
  /\ 0 <= running_count st <= MAX_RESULTS.

Definition METADATA_COLUMNS : list string :=
  ["_loaded_at"; "_location"; "_term"; "_is_complete"].

(** [df] is [pages] with its four JSON columns serialised cell by cell and
    the four metadata columns set in every row; nothing else differs. *)
Definition table_of_pages (json_dumps : Cell -> string) (location : string)
  (term : option string) (loaded_at : Z) (is_complete : bool)
  (pages df : DataFrame) : Prop :=
  nrows df = nrows pages
  /\ Forall (fun name =>
               exists cells,
                 get_column name pages = Some cells
                 /\ get_column name df
                    = Some (map (fun c => CStr (json_dumps c)) cells))
       JSON_COLUMNS
  /\ get_column "_loaded_at" df
     = Some (repeat (CTimestamp loaded_at) (nrows df))
  /\ get_column "_location" df = Some (repeat (CStr location) (nrows df))
  /\ get_column "_term" df
     = Some (repeat (CStr (term_or_empty term)) (nrows df))
  /\ get_column "_is_complete" df
     = Some (repeat (CStr (str_of_bool is_complete)) (nrows df))
  /\ column_names df = add_names (column_names pages) METADATA_COLUMNS
  /\ (forall name,
         mem name (JSON_COLUMNS ++ METADATA_COLUMNS) = false ->
         get_column name df = get_column name pages).



(** A store for the examples: it remembers the queries that find rows,
    and the tables written to it. *)
Module SampleStore.

Record Store : Type := mkStore {
  answering : list string;
  written : list DataFrame
}.

Definition one_row : DataFrame :=
  {| nrows := 1; columns := [("1", [CJson (JInt 1)])] |}.

#[global] Instance store_connection : Connection Store := {
  read_sql := fun sql store =>
    if mem sql (answering store) then Ok one_row
    else Raise (DatabaseError "no such table");
  to_sql := fun df _ _ store =>
    (Ok tt, {| answering := answering store;
               written := written store ++ [df] |})
}.

(** The search for all businesses of Austin is already loaded. *)
Definition austin_loaded : Store :=
  {| answering := [loaded_query "Austin, TX" ""]; written := [] |}.

(** A store without the table: every lookup raises. *)
Definition no_table : Store := {| answering := []; written := [] |}.

End SampleStore.

(* ================================================================== *)
(** ** Vocabulary of the further properties *)

(** The state in which an iteration leaves the loop when its request is
    answered by an error. *)
Definition stopped (st : LoopState) : LoopState :=
  {| running_count := running_count st; limit := 0;
     total_count := total_count st; page_dfs := page_dfs st |}.

(** A response that brings no business: an error with a JSON body, or a
    page without businesses. *)
Definition no_businesses (response : Response) : Prop :=
  (status_code response <> 200
   /\ forall raw, text response <> NotJson raw)
  \/ (status_code response = 200
      /\ exists total, text response = SearchBody total []).

(** The rows of the pages accumulated so far. *)
Definition rows_of (pages : list DataFrame) : nat :=
  fold_right (fun df n => (nrows df + n)%nat) 0%nat pages.

(** A server that holds [total] results for the search and pages them
    faithfully: it answers the request number [n] of the search, which
    starts at offset [50 n], with the businesses that remain from there,
    50 at most, and with that total. *)
Definition serves (total : Z) (net : Net) : Prop :=
  forall n,
    50 * Z.of_nat n < total ->
    let response := responses net (length (exchanges net) + n) in
    status_code response = 200
    /\ exists businesses,
         text response = SearchBody total businesses
         /\ Z.of_nat (length businesses)
            = Z.min 50 (total - 50 * Z.of_nat n).

(** What the loop keeps true on such a server, after [k] requests. *)
Definition serving_invariant (total : Z) (net : Net) (k : nat)
  (st : LoopState) (net_k : Net) : Prop :=
  responses net_k = responses net
  /\ length (exchanges net_k) = (length (exchanges net) + k)%nat
  /\ total_count st = total
  /\ running_count st
     = Z.min (50 * Z.of_nat k) (Z.min total MAX_RESULTS)
  /\ limit st = next_limit (running_count st) total
  /\ 50 * (Z.of_nat k - 1) < Z.min total MAX_RESULTS.

(** [sep in s]: the separator occurs in the string. *)
Fixpoint contains (sep s : string) : bool :=
  String.prefix sep s
  || match s with
     | EmptyString => false
     | String _ s' => contains sep s'
     end.

(** Every character of the string satisfies [p]. *)
Fixpoint all_chars (p : ascii -> bool) (s : string) : bool :=
  match s with
  | EmptyString => true
  | String c s' => p c && all_chars p s'
  end.

(** The characters [quote_plus] writes: the unquoted ones, and the [%]
    and [+] of its escapes. *)
Definition url_char (c : ascii) : bool :=
  Urllib.always_safe c || Ascii.eqb c "%" || Ascii.eqb c "+".

Definition not_amp (c : ascii) : bool := negb (Ascii.eqb c "&").

Definition hex_value (c : ascii) : option N :=
  if Urllib.between "0" "9" c then Some (N_of_ascii c - 48)%N
  else if Urllib.between "A" "F" c then Some (N_of_ascii c - 55)%N
  else if Urllib.between "a" "f" c then Some (N_of_ascii c - 87)%N
  else None.

(** The reading of what [quote_plus] writes, as
    [urllib.parse.unquote_plus] does it on the bytes: [+] is a space,
    [%XY] is the byte of that code, and a [%] that is not followed by two
    hexadecimal digits stays.  It serves to show that the encoding loses
    nothing. *)
Fixpoint unquote_plus (s : string) : string :=
  match s with
  | EmptyString => ""
  | String c s' =>
      if Ascii.eqb c "+" then String " " (unquote_plus s')
      else if Ascii.eqb c "%" then
        match s' with
        | String h (String l rest) =>
            match hex_value h, hex_value l with
            | Some x, Some y =>
                String (ascii_of_N (16 * x + y)) (unquote_plus rest)
            | _, _ => String c (unquote_plus s')
            end
        | _ => String c (unquote_plus s')
        end
      else String c (unquote_plus s')
  end.

(** The frame the loop makes of a page (lines 122-123). *)
Definition page_frame (page_url : string)
  (businesses : list BusinessRecord) : DataFrame :=
  set_scalar "_page_url" (CStr page_url) (from_records businesses).

(** The frame an exchange of the log stands for, if any: a search result
    received with status 200 and with at least one business. *)
Definition frame_of_exchange (e : string * Response) : list DataFrame :=
  if status_code (snd e) =? 200 then
    match search_result (text (snd e)) with
    | Some (_, b :: bs) => [page_frame (fst e) (b :: bs)]
    | _ => []
    end
  else [].

(** The frames of a log, oldest exchange first. *)
Definition frames_of_log (log : list (string * Response))
  : list DataFrame :=
  flat_map frame_of_exchange (rev log).

(** Some business of the exchange has the key. *)
Definition brings_key (key : string) (e : string * Response) : bool :=
  (status_code (snd e) =? 200)
  && match search_result (text (snd e)) with
     | Some (_, businesses) =>
         existsb (fun b => mem key (map fst b)) businesses
     | None => false
     end.

(** The [_page_url] cells an exchange stands for: its URL, once for each
    business of its page. *)
Definition url_cells (e : string * Response) : list Cell :=
  if status_code (snd e) =? 200 then
    match search_result (text (snd e)) with
    | Some (_, businesses) => repeat (CStr (fst e)) (length businesses)
    | None => []
    end
  else [].

(** Every JSON column is a key of some business the log brought. *)
Definition brings_json_columns (log : list (string * Response)) : bool :=
  forallb (fun key => existsb (brings_key key) log) JSON_COLUMNS.

(** More servers for the examples. *)
Module Scenario.

Definition bad_gateway : Response :=
  {| status_code := 502; reason := "Bad Gateway";
     text := NotJson "<html><body>502 Bad Gateway</body></html>" |}.

(** The state of the loop after a first page of 50 businesses of 80. *)
Definition after_fifty : LoopState :=
  {| running_count := 50; limit := 30; total_count := 80;
     page_dfs :=
       [set_scalar "_page_url"
          (CStr (page_url_of (yelp_search_url "Austin, TX" None) 50 0))
          (from_records (repeat (Sample.business "b") 50))] |}.

(** 50 of 80, then an error of the API. *)
Definition fifty_then_error : Net :=
  Sample.net_of (fun n => match n with
                          | O => Sample.page 80 50
                          | _ => Sample.server_error
                          end).

(** 50 of 80, then an error page that is not JSON. *)
Definition fifty_then_gateway : Net :=
  Sample.net_of (fun n => match n with
                          | O => Sample.page 80 50
                          | _ => bad_gateway
                          end).

(** 80 results, served as 50 and 30. *)
Definition eighty : Net :=
  Sample.net_of (fun n => match n with
                          | O => Sample.page 80 50
                          | _ => Sample.page 80 30
                          end).

(** A business without transactions. *)
Definition closed_business : BusinessRecord :=
  [ ("id", JStr "c");
    ("categories", JArr []);
    ("coordinates", JObj []);
    ("location", JObj []) ].

(** One page of one business, which has no [transactions]. *)
Definition one_closed : Net :=
  Sample.net_of
    (fun _ => {| status_code := 200; reason := "OK";
                 text := SearchBody 1 [closed_business] |}).

End Scenario.

(* ================================================================== *)
(** ** The pagination loop: unfolding and termination *)

Lemma loop_body_eq (search_url : string) (st : LoopState) (net : Net) :
  let page_url := page_url_of search_url (limit st) (running_count st) in
  loop_body search_url st net
  = (handle_response page_url (next_response net) st, answered page_url net).
Proof. reflexivity. Qed.

Lemma fetch_pages_step (fuel : nat) (search_url : string) (st : LoopState)
  (net : Net) :
  let page_url := page_url_of search_url (limit st) (running_count st) in
  fetch_pages (S fuel) search_url st net
  = if loop_guard st then
      match handle_response page_url (next_response net) st with
      | Ok st' => fetch_pages fuel search_url st' (answered page_url net)
      | Raise e => (Raise e, answered page_url net)
      end
    else (Ok st, net).
Proof.
  cbn [fetch_pages]. destruct (loop_guard st); [|reflexivity].
  unfold bind. rewrite loop_body_eq. unfold lift.
  destruct (handle_response _ _ st); reflexivity.
Qed.

(** The two lookups of the loop succeed on the search results, with
    their total and their businesses. *)
Lemma search_result_lookups (b : Body) (total : Z)
  (businesses : list BusinessRecord) :
  dict_total b = Ok total ->
  dict_businesses b = Ok businesses ->
  search_result b = Some (total, businesses).
Proof.
  destruct b as [t bs|v|raw]; cbn [dict_total dict_businesses search_result].
  - now intros [= ->] [= ->].
  - destruct v as [| | | | | |fields]; try discriminate.
    destruct (json_field "total" fields) as [[|b|z| | | |]|];
      try discriminate;
      (destruct (json_field "businesses" fields) as [[| | | | |items|]|];
       try discriminate;
       destruct (records_of items) as [records|]; try discriminate;
       now intros [= ->] [= ->]).
  - discriminate.
Qed.

Lemma search_result_total (b : Body) (total : Z)
  (businesses : list BusinessRecord) :
  search_result b = Some (total, businesses) ->
  dict_total b = Ok total /\ dict_businesses b = Ok businesses.
Proof.
  destruct b as [t bs|v|raw]; cbn [dict_total dict_businesses search_result].
  - now intros [= -> ->].
  - destruct v as [| | | | | |fields]; try discriminate.
    destruct (json_field "total" fields) as [[|b|z| | | |]|];
      try discriminate;
      (destruct (json_field "businesses" fields) as [[| | | | |items|]|];
       try discriminate;
       destruct (records_of items) as [records|]; try discriminate;
       now intros [= <- <-]).
  - discriminate.
Qed.

Lemma records_of_objects (businesses : list BusinessRecord) :
  records_of (map JObj businesses) = Some businesses.
Proof.
  induction businesses as [|b bs IH]; cbn [map records_of];
    [reflexivity|now rewrite IH].
Qed.

(** A search result is read in the same way when it is given as the
    object it is, whatever other fields follow. *)
Lemma search_body_as_object (total : Z) (businesses : list BusinessRecord)
  (others : list (string * json)) :
  let document :=
    OtherJson (JObj (("total", JInt total)
                     :: ("businesses", JArr (map JObj businesses))
                     :: others)) in
  dict_total document = dict_total (SearchBody total businesses)
  /\ dict_businesses document
     = dict_businesses (SearchBody total businesses)
  /\ search_result document
     = search_result (SearchBody total businesses).
Proof.
  cbn. now rewrite records_of_objects.
Qed.

Lemma handle_response_handled page_url response st st' :
  handle_response page_url response st = Ok st' ->
  handled page_url response st st'.
Proof.
  unfold handle_response.
  destruct (Z.eqb_spec (status_code response) 200) as [E200|N200].
  - destruct (json_loads (text response)) as [b|e] eqn:Eloads;
      cbn [and_then]; [|discriminate].
    assert (b = text response) as ->
      by (destruct (text response); cbn in Eloads; congruence).
    destruct (dict_total (text response)) as [total|e] eqn:Etotal;
      cbn [and_then]; [|discriminate].
    destruct (dict_businesses (text response)) as [bs|e] eqn:Ebs;
      cbn [and_then]; [|discriminate].
    pose proof (search_result_lookups _ _ _ Etotal Ebs) as Hres.
    destruct (Z.eqb_spec (Z.of_nat (length bs)) 0) as [E|NE].
    + destruct bs; [|cbn [length] in E; lia].
      intros [= <-]. now apply handled_empty.
    + intros [= <-]. apply handled_page; [assumption|assumption|].
      intros ->. now apply NE.
  - destruct (json_loads (text response)); cbn; [|discriminate].
    intros [= <-]. now apply handled_error.
Qed.

Lemma loop_guard_limit_zero st : limit st = 0 -> loop_guard st = false.
Proof.
  intros Hz. unfold loop_guard. rewrite Hz. now rewrite andb_false_r.
Qed.

Lemma handled_stops_or_advances page_url response st st' :
  handled page_url response st st' ->
  loop_guard st' = false \/ running_count st < running_count st'.
Proof.
  intros [N|total E T|total bs E T NE]; cbn.
  - left. now apply loop_guard_limit_zero.
  - left. now apply loop_guard_limit_zero.
  - right. destruct bs; [congruence|cbn [length]]. lia.
Qed.

Lemma loop_guard_true st :
  loop_guard st = true ->
  running_count st + limit st <= MAX_RESULTS
  /\ running_count st + limit st <= total_count st
  /\ 0 < limit st.
Proof.
  unfold loop_guard. rewrite !andb_true_iff.
  intros [[H1 H2] H3].
  apply Z.leb_le in H1. apply Z.leb_le in H2. apply Z.gtb_lt in H3. lia.
Qed.

(** Once the loop has stopped, more iterations change nothing. *)
Lemma fetch_pages_stopped search_url st net :
  loop_guard st = false ->
  forall fuel, fetch_pages fuel search_url st net = (Ok st, net).
Proof.
  intros G [|fuel]; [reflexivity|]. rewrite fetch_pages_step, G. reflexivity.
Qed.

Lemma fetch_pages_more_fuel search_url :
  forall n st net r net',
    fetch_pages n search_url st net = (r, net') ->
    (forall st', r = Ok st' -> loop_guard st' = false) ->
    forall m, (n <= m)%nat -> fetch_pages m search_url st net = (r, net').
Proof.
  induction n as [|n IH]; intros st net r net' Hrun Hdone m Hle.
  - cbn in Hrun. injection Hrun as <- <-.
    apply fetch_pages_stopped. now apply Hdone.
  - destruct m as [|m]; [lia|].
    rewrite fetch_pages_step in Hrun |- *.
    destruct (loop_guard st); [|assumption].
    destruct (handle_response _ _ st) as [st1|e]; [|assumption].
    apply IH; [assumption|assumption|lia].
Qed.

(** The loop ends within [fuel] iterations when [fuel] exceeds what is
    left up to the cap. *)
Lemma fetch_pages_exits_from search_url :
  forall fuel st net,
    (Z.to_nat (MAX_RESULTS - running_count st) < fuel)%nat ->
    forall st', fst (fetch_pages fuel search_url st net) = Ok st' ->
                loop_guard st' = false.
Proof.
  induction fuel as [|fuel IH]; intros st net Hfuel st' Hrun; [lia|].
  rewrite fetch_pages_step in Hrun.
  destruct (loop_guard st) eqn:G.
  - destruct (handle_response _ _ st) as [st1|e] eqn:Hr; [|discriminate].
    apply handle_response_handled in Hr.
    destruct (handled_stops_or_advances _ _ _ _ Hr) as [G1|Hadv].
    + rewrite fetch_pages_stopped in Hrun by assumption.
      cbn in Hrun. now injection Hrun as <-.
    + apply loop_guard_true in G. unfold MAX_RESULTS in *.
      eapply IH; [|exact Hrun]. unfold MAX_RESULTS. lia.
  - cbn in Hrun. now injection Hrun as <-.
Qed.

(** [PAGE_BOUND] iterations are enough: the bounded loop is the loop. *)
Theorem fetch_pages_exits search_url net st :
  fst (fetch_pages PAGE_BOUND search_url initial_state net) = Ok st ->
  loop_guard st = false.
Proof.
  apply fetch_pages_exits_from. vm_compute. lia.
Qed.

Theorem fetch_pages_total search_url net fuel :
  (PAGE_BOUND <= fuel)%nat ->
  fetch_pages fuel search_url initial_state net
  = fetch_pages PAGE_BOUND search_url initial_state net.
Proof.
  intros Hle.
  destruct (fetch_pages PAGE_BOUND search_url initial_state net)
    as [r net'] eqn:Hrun.
  eapply fetch_pages_more_fuel; [exact Hrun| |exact Hle].
  intros st' ->. apply (fetch_pages_exits search_url net).
  now rewrite Hrun.
Qed.

(* ================================================================== *)
(** ** The requests of the fetcher *)

Lemma next_limit_le running total : next_limit running total <= MAX_LIMIT.
Proof.
  unfold next_limit.
  destruct (Z.leb_spec (running + MAX_LIMIT) (Z.min total MAX_RESULTS)); lia.
Qed.

Lemma handled_bounds page_url response st st' :
  handled page_url response st st' ->
  0 <= running_count st ->
  limit st' <= MAX_LIMIT /\ 0 <= running_count st'.
Proof.
  intros [N|total E T|total bs E T NE] Hpos; cbn; unfold MAX_LIMIT.
  - lia.
  - lia.
  - split; [apply next_limit_le|lia].
Qed.

Lemma assemble_net json_dumps location term st net :
  snd (assemble json_dumps location term st net) = net.
Proof.
  unfold assemble, bind, lift, timestamp_utcnow, ret.
  destruct (match page_dfs st with [] => Ok empty_frame | _ => _ end);
    [|reflexivity].
  destruct (coerce_json_columns json_dumps a); reflexivity.
Qed.

Lemma fetch_pages_requests search_url :
  forall fuel st net,
    limit st <= MAX_LIMIT ->
    0 <= running_count st ->
    exists new,
      exchanges (snd (fetch_pages fuel search_url st net))
      = new ++ exchanges net
      /\ Forall (fun e => request_in_bounds search_url (fst e)) new.
Proof.
  induction fuel as [|fuel IH]; intros st net Hlim Hpos.
  - exists []. split; [reflexivity|constructor].
  - rewrite fetch_pages_step.
    destruct (loop_guard st) eqn:G.
    2:{ exists []. split; [reflexivity|constructor]. }
    assert (Hreq : request_in_bounds search_url
                     (page_url_of search_url (limit st) (running_count st))).
    { exists st. pose proof (loop_guard_true _ G). repeat split; try lia.
      assumption. }
    destruct (handle_response _ _ st) as [st1|e] eqn:Hr.
    + apply handle_response_handled in Hr.
      destruct (handled_bounds _ _ _ _ Hr Hpos) as [Hlim1 Hpos1].
      destruct (IH st1 (answered (page_url_of search_url (limit st)
                                     (running_count st)) net) Hlim1 Hpos1)
        as (new & Hnew & Hall).
      exists (new ++ [(page_url_of search_url (limit st) (running_count st),
                       next_response net)]).
      split.
      * rewrite Hnew. cbn [answered exchanges]. now rewrite <- app_assoc.
      * apply Forall_app. split; [assumption|].
        constructor; [assumption|constructor].
    + exists [(page_url_of search_url (limit st) (running_count st),
               next_response net)].
      split; [reflexivity|]. constructor; [assumption|constructor].
Qed.

(** C1.  Whatever the server answers, every page request of the fetcher
    is made in a state in which the loop condition holds, asks for at most
    50 results, and its offset plus its limit does not exceed 1000. *)
Theorem fetcher_requests_within_limits (json_dumps : Cell -> string)
  (location : string) (term : option string) (net : Net) :
  exists new,
    exchanges (snd (yelp_location_search json_dumps location term net))
    = new ++ exchanges net
    /\ Forall (fun e => request_in_bounds (yelp_search_url location term)
                          (fst e)) new.
Proof.
  destruct (fetch_pages_requests (yelp_search_url location term)
              PAGE_BOUND initial_state net) as (new & Hnew & Hall);
    [cbn; unfold MAX_LIMIT; lia | cbn; lia |].
  exists new. split; [|assumption].
  unfold yelp_location_search, bind.
  destruct (fetch_pages PAGE_BOUND _ initial_state net) as [[st|e] net1];
    cbn [snd] in Hnew |- *.
  - now rewrite assemble_net.
  - assumption.
Qed.

(* ================================================================== *)
(** ** Runs in which every page succeeds *)

Lemma good_pageb_sound limit response :
  good_pageb limit response = true -> good_page limit response.
Proof.
  unfold good_pageb, good_page. rewrite andb_true_iff.
  intros [Hs Ht]. apply Z.eqb_eq in Hs. split; [assumption|].
  destruct (text response) as [total bs| |]; try discriminate.
  apply andb_true_iff in Ht. destruct Ht as [H0 H1].
  apply Z.ltb_lt in H0. apply Z.leb_le in H1.
  exists total, bs. split; [reflexivity|lia].
Qed.

Lemma every_page_goodb_sound search_url net n :
  every_page_goodb search_url net n = true -> every_page_good search_url net.
Proof.
  unfold every_page_goodb. rewrite andb_true_iff.
  intros [Hpre Hstop] k st net' Hrun G.
  rewrite forallb_forall in Hpre.
  destruct (Nat.le_gt_cases k n) as [Hle|Hgt].
  - specialize (Hpre k). unfold prefix_good in Hpre. rewrite Hrun in Hpre.
    rewrite G in Hpre. apply good_pageb_sound. apply Hpre.
    apply in_seq. lia.
  - unfold stopped_after in Hstop.
    destruct (fetch_pages n search_url initial_state net) as [r netn] eqn:Hn.
    assert (Hk : fetch_pages k search_url initial_state net = (r, netn)).
    { eapply fetch_pages_more_fuel; [exact Hn| |lia].
      intros st' ->. now apply negb_true_iff in Hstop. }
    rewrite Hrun in Hk. injection Hk as <- <-.
    apply negb_true_iff in Hstop. congruence.
Qed.

Lemma pages_good_step search_url st net st1 :
  let page_url := page_url_of search_url (limit st) (running_count st) in
  pages_good_from search_url st net ->
  loop_guard st = true ->
  handle_response page_url (next_response net) st = Ok st1 ->
  pages_good_from search_url st1 (answered page_url net).
Proof.
  intros page_url Hgood G Hr k st' net' Hrun.
  apply (Hgood (S k)). rewrite fetch_pages_step, G.
  fold page_url. rewrite Hr. exact Hrun.
Qed.

Lemma handle_good_page page_url response st :
  good_page (limit st) response ->
  exists total businesses,
    text response = SearchBody total businesses
    /\ 0 < Z.of_nat (length businesses) <= limit st
    /\ handle_response page_url response st
       = Ok {| running_count :=
                 running_count st + Z.of_nat (length businesses);
               limit := next_limit
                          (running_count st + Z.of_nat (length businesses))
                          total;
               total_count := total;
               page_dfs := page_dfs st
                           ++ [set_scalar "_page_url" (CStr page_url)
                                 (from_records businesses)] |}.
Proof.
  intros (Hs & total & bs & Ht & Hlen).
  exists total, bs. split; [assumption|]. split; [assumption|].
  unfold handle_response. rewrite Hs, Ht.
  cbn [Z.eqb Pos.eqb json_loads and_then dict_total dict_businesses].
  destruct (Z.eqb_spec (Z.of_nat (length bs)) 0); [lia|reflexivity].
Qed.

Lemma paging_invariant_exit st :
  paging_invariant st ->
  loop_guard st = false ->
  Z.min (total_count st) MAX_RESULTS <= running_count st <= MAX_RESULTS.
Proof.
  unfold paging_invariant, loop_guard, next_limit.
  intros [Hlim Hrun] G. rewrite Hlim in G.
  destruct (Z.leb_spec (running_count st + MAX_LIMIT)
              (Z.min (total_count st) MAX_RESULTS)) as [Hfull|Hlast].
  - exfalso. unfold MAX_LIMIT, MAX_RESULTS in *.
    rewrite !andb_false_iff, !Z.leb_gt, Z.gtb_ltb, Z.ltb_ge in G. lia.
  - rewrite !andb_false_iff, !Z.leb_gt, Z.gtb_ltb, Z.ltb_ge in G. lia.
Qed.

Lemma fetch_pages_good_from search_url :
  forall fuel st net,
    paging_invariant st ->
    pages_good_from search_url st net ->
    (Z.to_nat (MAX_RESULTS - running_count st) < fuel)%nat ->
    exists st' net',
      fetch_pages fuel search_url st net = (Ok st', net')
      /\ loop_guard st' = false
      /\ paging_invariant st'.
Proof.
  induction fuel as [|fuel IH]; intros st net Hinv Hgood Hfuel; [lia|].
  rewrite fetch_pages_step.
  destruct (loop_guard st) eqn:G.
  2:{ exists st, net. repeat split; try assumption; apply Hinv. }
  pose proof (Hgood 0%nat st net eq_refl G) as Hpage.
  destruct (handle_good_page
              (page_url_of search_url (limit st) (running_count st))
              _ _ Hpage) as (total & bs & Ht & Hlen & Hr).
  pose proof (pages_good_step _ _ _ _ Hgood G Hr) as Hgood1.
  rewrite Hr. apply loop_guard_true in G. destruct Hinv as [_ Hrun].
  apply IH; [|assumption|cbn [running_count]; unfold MAX_RESULTS in *; lia].
  split; cbn [running_count limit total_count]; [reflexivity|lia].
Qed.

(** C2, as the code has it.  When every request is answered by a good
    page the loop ends without an error, with [running_count] between
    [min(total_count, 1000)] and 1000: [is_complete] is true exactly when
    the last reported total is at most 1000, and then [running_count]
    equals [total_count] unless more records came than that total. *)
Theorem all_pages_good_outcome (search_url : string) (net : Net) :
  every_page_good search_url net ->
  exists st net',
    fetch_pages PAGE_BOUND search_url initial_state net = (Ok st, net')
    /\ loop_guard st = false
    /\ Z.min (total_count st) MAX_RESULTS <= running_count st <= MAX_RESULTS
    /\ is_complete_of st = (total_count st <=? MAX_RESULTS)
    /\ (running_count st <= total_count st <= MAX_RESULTS ->
        running_count st = total_count st).
Proof.
  intros Hgood.
  destruct (fetch_pages_good_from search_url PAGE_BOUND initial_state net)
    as (st & net' & Hrun & G & Hinv).
  - split; cbn; [reflexivity|unfold MAX_RESULTS; lia].
  - exact Hgood.
  - vm_compute. lia.
  - exists st, net'. pose proof (paging_invariant_exit st Hinv G) as Hb.
    repeat split; try assumption; try apply Hb.
    + unfold is_complete_of.
      destruct (Z.ltb_spec (running_count st) (total_count st));
        destruct (Z.leb_spec (total_count st) MAX_RESULTS); lia.
    + lia.
Qed.

(** On a server with 30 results that answers with one page of 30. *)
Lemma all_pages_good_outcome_witness :
  every_page_good (yelp_search_url "Austin, TX" None) Sample.thirty
  /\ exists st net',
       fetch_pages PAGE_BOUND (yelp_search_url "Austin, TX" None)
         initial_state Sample.thirty = (Ok st, net')
       /\ loop_guard st = false
       /\ Z.min (total_count st) MAX_RESULTS <= running_count st
          <= MAX_RESULTS
       /\ is_complete_of st = (total_count st <=? MAX_RESULTS)
       /\ (running_count st <= total_count st <= MAX_RESULTS ->
           running_count st = total_count st).
Proof.
  assert (H : every_page_good (yelp_search_url "Austin, TX" None)
                Sample.thirty).
  { apply (every_page_goodb_sound _ _ 1). vm_compute. reflexivity. }
  split; [exact H|].
  exact (all_pages_good_outcome _ _ H).
Defined.

(** C2 as stated fails above the cap: 1500 results are announced and
    every page is full, the loop stops at 1000 and the search is marked
    incomplete. *)
Lemma over_cap_is_incomplete :
  every_page_good (yelp_search_url "Springfield, IL" None) Sample.over_cap
  /\ match fetch_pages PAGE_BOUND (yelp_search_url "Springfield, IL" None)
             initial_state Sample.over_cap with
     | (Ok st, _) =>
         total_count st = 1500 /\ running_count st = 1000
         /\ is_complete_of st = false
     | (Raise _, _) => False
     end
  /\ match yelp_location_search Sample.json_dumps "Springfield, IL" None
             Sample.over_cap with
     | (Ok df, _) =>
         nrows df = 1000%nat
         /\ get_column "_is_complete" df
            = Some (repeat (CStr "False") 1000)
     | (Raise _, _) => False
     end.
Proof.
  split; [|split].
  - apply (every_page_goodb_sound _ _ 20). vm_compute. reflexivity.
  - vm_compute. repeat split.
  - vm_compute. repeat split.
Qed.

(** A total that shrinks between pages: the search is complete, with more
    records than the last total. *)
Lemma shrinking_total_overshoots :
  every_page_good (yelp_search_url "Austin, TX" None) Sample.shrinking
  /\ match fetch_pages PAGE_BOUND (yelp_search_url "Austin, TX" None)
             initial_state Sample.shrinking with
     | (Ok st, _) =>
         total_count st = 60 /\ running_count st = 80
         /\ is_complete_of st = true
     | (Raise _, _) => False
     end.
Proof.
  split.
  - apply (every_page_goodb_sound _ _ 2). vm_compute. reflexivity.
  - vm_compute. repeat split.
Qed.

(** The scenario of one page of 30 businesses, total 30: a table of 30
    rows marked complete, after one request. *)
Lemma thirty_scenario :
  nrows Sample.thirty_table = 30%nat
  /\ get_column "_is_complete" Sample.thirty_table
     = Some (repeat (CStr "True") 30)
  /\ length (exchanges (snd (yelp_location_search Sample.json_dumps
                               "Austin, TX" None Sample.thirty))) = 1%nat.
Proof. vm_compute. repeat split. Qed.

(* ================================================================== *)
(** ** Runs that fetch nothing, and empty pages *)

(** With no page fetched the table is [pandas.DataFrame()], which has no
    JSON column to select: line 147 raises. *)
Lemma assemble_no_pages json_dumps location term st net :
  page_dfs st = [] ->
  assemble json_dumps location term st net
  = (Raise (KeyError "categories"), net).
Proof.
  intros Hnone. unfold assemble. rewrite Hnone. reflexivity.
Qed.

(** A response other than 200 whose body is JSON ends the loop with the
    state as it was, but for [limit]. *)
Lemma error_response_stops search_url st net fuel :
  let page_url := page_url_of search_url (limit st) (running_count st) in
  loop_guard st = true ->
  status_code (next_response net) <> 200 ->
  (forall raw, text (next_response net) <> NotJson raw) ->
  fetch_pages (S fuel) search_url st net
  = (Ok {| running_count := running_count st; limit := 0;
           total_count := total_count st; page_dfs := page_dfs st |},
     answered page_url net).
Proof.
  intros page_url G Hs Hjson. rewrite fetch_pages_step, G. fold page_url.
  unfold handle_response.
  destruct (Z.eqb_spec (status_code (next_response net)) 200); [contradiction|].
  destruct (text (next_response net)) as [total bs|v|raw] eqn:Ht;
    cbn [json_loads and_then].
  - now apply fetch_pages_stopped, loop_guard_limit_zero.
  - now apply fetch_pages_stopped, loop_guard_limit_zero.
  - now destruct (Hjson raw).
Qed.

(** An empty page ends the loop at once: no further request is made, the
    count is as it was and the total is the one of that page. *)
Lemma empty_page_stops search_url st net total fuel :
  let page_url := page_url_of search_url (limit st) (running_count st) in
  loop_guard st = true ->
  status_code (next_response net) = 200 ->
  text (next_response net) = SearchBody total [] ->
  fetch_pages (S fuel) search_url st net
  = (Ok {| running_count := running_count st; limit := 0;
           total_count := total; page_dfs := page_dfs st |},
     answered page_url net).
Proof.
  intros page_url G Hs Ht. rewrite fetch_pages_step, G. fold page_url.
  unfold handle_response. rewrite Hs, Ht.
  cbn [Z.eqb Pos.eqb json_loads and_then dict_total dict_businesses length
       Z.of_nat].
  now apply fetch_pages_stopped, loop_guard_limit_zero.
Qed.

Lemma empty_page_incomplete st total :
  running_count st < total ->
  is_complete_of {| running_count := running_count st; limit := 0;
                    total_count := total; page_dfs := page_dfs st |}
  = false.
Proof.
  intros Hlt. unfold is_complete_of; cbn.
  destruct (Z.ltb_spec (running_count st) total); [reflexivity|lia].
Qed.

(** The search that fails at its first request raises whatever the
    location and the term. *)
Lemma first_request_fails json_dumps location term net :
  status_code (next_response net) <> 200 ->
  (forall raw, text (next_response net) <> NotJson raw) ->
  fst (yelp_location_search json_dumps location term net)
  = Raise (KeyError "categories").
Proof.
  intros Hs Hjson. unfold yelp_location_search, bind, PAGE_BOUND.
  rewrite error_response_stops by (assumption || reflexivity).
  now rewrite assemble_no_pages.
Qed.

(** So does the search whose first page is empty. *)
Lemma first_page_empty_fails json_dumps location term net total :
  status_code (next_response net) = 200 ->
  text (next_response net) = SearchBody total [] ->
  fst (yelp_location_search json_dumps location term net)
  = Raise (KeyError "categories").
Proof.
  intros Hs Ht. unfold yelp_location_search, bind, PAGE_BOUND.
  rewrite (empty_page_stops _ _ _ total) by (assumption || reflexivity).
  now rewrite assemble_no_pages.
Qed.

(** C3.  The server answers the first request with HTTP 500: no page is
    accumulated, and the fetcher raises [KeyError] instead of returning an
    empty table. *)
Theorem fetcher_raises_without_pages (json_dumps : Cell -> string) :
  fst (yelp_location_search json_dumps "Austin, TX" None Sample.failing)
  = Raise (KeyError "categories").
Proof. reflexivity. Qed.

(** The scenario of two pages, 50 of 80 and then none: a table of 50 rows
    marked incomplete, after two requests. *)
Lemma fifty_then_nothing_scenario :
  match yelp_location_search Sample.json_dumps "Austin, TX" None
          Sample.fifty_then_nothing with
  | (Ok df, net') =>
      nrows df = 50%nat
      /\ get_column "_is_complete" df = Some (repeat (CStr "False") 50)
      /\ length (exchanges net') = 2%nat
  | (Raise _, _) => False
  end.
Proof. vm_compute. repeat split. Qed.

(** C4.  The first page is empty although 80 results are announced: the
    loop stops, the search is incomplete, but no table marked incomplete
    is returned; the fetcher raises [KeyError]. *)
Theorem empty_first_page_raises (json_dumps : Cell -> string) :
  fst (yelp_location_search json_dumps "Austin, TX" None
         Sample.nothing_of_eighty)
  = Raise (KeyError "categories").
Proof. reflexivity. Qed.

(* ================================================================== *)
(** ** URL builder, count prober and location expander *)

(** C10.  An empty term is no term: the same search URL, the same [_term]
    in the table, and so the same probe and the same search. *)
Theorem empty_term_is_no_term (location : string) :
  yelp_search_url location (Some "") = yelp_search_url location None
  /\ term_or_empty (Some "") = "" /\ term_or_empty None = ""
  /\ (forall net,
        yelp_expected_result_count location (Some "") net
        = yelp_expected_result_count location None net)
  /\ (forall json_dumps net,
        yelp_location_search json_dumps location (Some "") net
        = yelp_location_search json_dumps location None net)
  /\ (forall (Con : Type) (con : Connection Con) json_dumps (w : World),
        process_location json_dumps location (Some "") w
        = process_location json_dumps location None w).
Proof. repeat split. Qed.

Lemma probe_answered_200 location term net total :
  status_code (next_response net) = 200 ->
  dict_total (text (next_response net)) = Ok total ->
  yelp_expected_result_count location term net
  = (Ok total, answered (yelp_search_url location term) net).
Proof.
  intros Hs Ht. unfold yelp_expected_result_count, bind, requests_get.
  rewrite Hs. cbn [Z.eqb Pos.eqb lift].
  destruct (text (next_response net)); cbn [json_loads and_then];
    [now rewrite Ht|now rewrite Ht|discriminate].
Qed.

Lemma probe_answered_otherwise location term net :
  status_code (next_response net) <> 200 ->
  yelp_expected_result_count location term net
  = (Ok 0, answered (yelp_search_url location term) net).
Proof.
  intros Hs. unfold yelp_expected_result_count, bind, requests_get.
  destruct (Z.eqb_spec (status_code (next_response net)) 200);
    [contradiction|reflexivity].
Qed.

(** C8.  The prober makes one request to the search URL.  When the
    status is 200 and the decoded body is an object whose [total] field
    is an integer, it returns that integer, whatever else the object
    holds or lacks; for every other status it returns 0, without raising
    and without looking at the body. *)
Theorem prober_total_or_zero (location : string) (term : option string)
  (net : Net) :
  (forall total,
      status_code (next_response net) = 200 ->
      has_total (text (next_response net)) total ->
      yelp_expected_result_count location term net
      = (Ok total, answered (yelp_search_url location term) net))
  /\ (status_code (next_response net) <> 200 ->
      yelp_expected_result_count location term net
      = (Ok 0, answered (yelp_search_url location term) net)).
Proof.
  split.
  - intros total Hs [[businesses Hb]|[fields [Hb Hf]]];
      apply probe_answered_200; try assumption; rewrite Hb;
      cbn [dict_total]; [reflexivity|now rewrite Hf].
  - apply probe_answered_otherwise.
Qed.

(** A probe answered with a page of 30 businesses of 30, a probe
    answered with the body [{"total": 30}], and a probe answered with
    HTTP 500. *)
Lemma prober_total_or_zero_witness :
  yelp_expected_result_count "Austin, TX" (Some "Black owned") Sample.thirty
  = (Ok 30,
     answered (yelp_search_url "Austin, TX" (Some "Black owned"))
       Sample.thirty)
  /\ yelp_expected_result_count "Austin, TX" None Sample.count_only
     = (Ok 30,
        answered (yelp_search_url "Austin, TX" None) Sample.count_only)
  /\ yelp_expected_result_count "Austin, TX" None Sample.failing
     = (Ok 0, answered (yelp_search_url "Austin, TX" None) Sample.failing).
Proof.
  split; [|split].
  - apply (proj1 (prober_total_or_zero "Austin, TX" (Some "Black owned")
                    Sample.thirty) 30).
    + reflexivity.
    + left. exists (repeat (Sample.business "b") 30). reflexivity.
  - apply (proj1 (prober_total_or_zero "Austin, TX" None
                    Sample.count_only) 30).
    + reflexivity.
    + right. exists [("total", JInt 30)]. split; reflexivity.
  - apply (proj2 (prober_total_or_zero "Austin, TX" None Sample.failing)).
    vm_compute. discriminate.
Defined.

(** C7.  A city whose probed count is at most 1000 is its own single
    location; in particular after a probe that failed, whose count is 0. *)
Theorem expander_keeps_city (zip_db : list Zipcode) (city : string)
  (term : option string) (net : Net) :
  (forall total net',
      yelp_expected_result_count city term net = (Ok total, net') ->
      total <= 1000 ->
      yelp_city_locations zip_db city term net = (Ok ([city], total), net'))
  /\ (status_code (next_response net) <> 200 ->
      yelp_city_locations zip_db city term net
      = (Ok ([city], 0), answered (yelp_search_url city term) net)).
Proof.
  assert (Hsmall : forall total net',
             yelp_expected_result_count city term net = (Ok total, net') ->
             total <= 1000 ->
             yelp_city_locations zip_db city term net
             = (Ok ([city], total), net')).
  { intros total net' Hprobe Hle. unfold yelp_city_locations, bind.
    rewrite Hprobe.
    destruct (Z.gtb_spec total 1000); [lia|reflexivity]. }
  split; [exact Hsmall|].
  intros Hs. apply Hsmall; [|lia].
  now apply probe_answered_otherwise.
Qed.

(** Springfield with 30 results, and Springfield when the probe fails. *)
Lemma expander_keeps_city_witness :
  yelp_city_locations Sample.zip_db "Springfield, IL" None Sample.thirty
  = (Ok (["Springfield, IL"], 30),
     answered (yelp_search_url "Springfield, IL" None) Sample.thirty)
  /\ yelp_city_locations Sample.zip_db "Springfield, IL" None Sample.failing
     = (Ok (["Springfield, IL"], 0),
        answered (yelp_search_url "Springfield, IL" None) Sample.failing).
Proof.
  split.
  - apply (proj1 (expander_keeps_city Sample.zip_db "Springfield, IL" None
                    Sample.thirty)).
    + reflexivity.
    + lia.
  - apply (proj2 (expander_keeps_city Sample.zip_db "Springfield, IL" None
                    Sample.failing)).
    vm_compute. discriminate.
Defined.

(** C6.  A city with a state code whose probed count exceeds 1000 becomes
    one location per postal code of the table for that city and state,
    each the city string, a space and the code, next to the probed
    count. *)
Theorem expander_splits_city (zip_db : list Zipcode) (city : string)
  (term : option string) (net net' : Net) (total : Z)
  (city_name state : string) (rest : list string) :
  yelp_expected_result_count city term net = (Ok total, net') ->
  1000 < total ->
  split ", " city = city_name :: state :: rest ->
  let locations :=
    map (fun z => (city ++ " " ++ zip_code z)%string)
        (filter_by zip_db city_name state) in
  yelp_city_locations zip_db city term net = (Ok (locations, total), net')
  /\ (forall location,
         In location locations <->
         exists z, In z zip_db /\ zip_city z = city_name
                   /\ zip_state z = state
                   /\ location = (city ++ " " ++ zip_code z)%string).
Proof.
  intros Hprobe Hbig Hsplit locations. split.
  - unfold yelp_city_locations, bind. rewrite Hprobe.
    destruct (Z.gtb_spec total 1000); [|lia].
    rewrite Hsplit. cbn [index nth_error lift]. unfold ret.
    subst locations. now rewrite map_map.
  - intros location. subst locations. rewrite in_map_iff. split.
    + intros (z & <- & Hin). apply filter_In in Hin.
      destruct Hin as [Hin Hmatch]. apply andb_true_iff in Hmatch.
      destruct Hmatch as [Hc Hst].
      apply String.eqb_eq in Hc. apply String.eqb_eq in Hst.
      exists z. repeat split; assumption.
    + intros (z & Hin & Hc & Hst & ->). exists z. split; [reflexivity|].
      apply filter_In. split; [assumption|].
      apply andb_true_iff. split; now apply String.eqb_eq.
Qed.

(** Springfield, IL with 1500 results and two postal codes in the table. *)
Lemma expander_splits_city_witness :
  yelp_city_locations Sample.zip_db "Springfield, IL" None Sample.over_cap
  = (Ok (["Springfield, IL 62701"; "Springfield, IL 62702"], 1500),
     answered (yelp_search_url "Springfield, IL" None) Sample.over_cap).
Proof.
  apply (expander_splits_city Sample.zip_db "Springfield, IL" None
           Sample.over_cap _ 1500 "Springfield" "IL" []).
  - reflexivity.
  - lia.
  - reflexivity.
Defined.

(* ================================================================== *)
(** ** Driver *)

(** What fetching and appending does: the requests of the search, then,
    if it returned a table, the write of that table. *)
Lemma fetch_and_append_effect {Con : Type} `{Connection Con}
  (json_dumps : Cell -> string) (location : string) (term : option string)
  (w : World) :
  fst (snd (fetch_and_append json_dumps location term w))
  = snd (yelp_location_search json_dumps location term (fst w))
  /\ (forall df,
         fst (yelp_location_search json_dumps location term (fst w)) = Ok df ->
         snd (snd (fetch_and_append json_dumps location term w))
         = snd (to_sql df DESTINATION_TABLE DESTINATION_SCHEMA (snd w))).
Proof.
  unfold fetch_and_append.
  destruct (yelp_location_search json_dumps location term (fst w))
    as [[yelp_data|e] net']; cbn [fst snd].
  - destruct (to_sql yelp_data DESTINATION_TABLE DESTINATION_SCHEMA (snd w))
      as [r store'] eqn:Hw.
    split; [reflexivity|]. intros df [= <-]. now rewrite Hw.
  - split; [reflexivity|discriminate].
Qed.

(** C5.  The driver looks up the rows of the location and the term (the
    empty string when there is none).  A lookup that finds rows leaves
    the network and the store as they are: no request, no write.  A
    lookup that raises has the effect of one that finds nothing: the
    driver makes the requests of the search for the location and the
    term and hands the table it returns to [to_sql] for the destination
    table, and the store is what that write leaves, whether it succeeds
    or not; if the search raises, so does the driver, and nothing is
    written. *)
Theorem lookup_decides_fetch {Con : Type} `{Connection Con}
  (json_dumps : Cell -> string) (location : string) (term : option string)
  (w : World) :
  let query :=
    loaded_query location (match term with Some t => t | None => "" end) in
  ((exists rows, read_sql query (snd w) = Ok rows /\ empty rows = false) ->
   process_location json_dumps location term w = (Ok tt, w))
  /\ ((exists e, read_sql query (snd w) = Raise e)
      \/ (exists rows, read_sql query (snd w) = Ok rows
                       /\ empty rows = true) ->
      process_location json_dumps location term w
      = match yelp_location_search json_dumps location term (fst w) with
        | (Ok yelp_data, net') =>
            (Ok tt,
             (net', snd (to_sql yelp_data DESTINATION_TABLE
                           DESTINATION_SCHEMA (snd w))))
        | (Raise e, net') => (Raise e, (net', snd w))
        end).
Proof.
  intros query.
  assert (Hquery : query = loaded_query location (term_or_empty term)).
  { unfold query, term_or_empty. destruct term as [t|]; [|reflexivity].
    cbn [truthy]. destruct (String.eqb_spec t "") as [->|_]; reflexivity. }
  assert (Hfetch :
            fetch_and_append json_dumps location term w
            = match yelp_location_search json_dumps location term (fst w) with
              | (Ok yelp_data, net') =>
                  (Ok tt,
                   (net', snd (to_sql yelp_data DESTINATION_TABLE
                                 DESTINATION_SCHEMA (snd w))))
              | (Raise e, net') => (Raise e, (net', snd w))
              end).
  { unfold fetch_and_append.
    destruct (yelp_location_search json_dumps location term (fst w))
      as [[yelp_data|e] net']; [|reflexivity].
    now destruct (to_sql yelp_data DESTINATION_TABLE DESTINATION_SCHEMA
                    (snd w)). }
  unfold process_location. rewrite <- Hquery, <- Hfetch. split.
  - intros (rows & -> & ->). reflexivity.
  - intros [(e & ->)|(rows & -> & ->)]; reflexivity.
Qed.

(** A store that has the rows of Austin: nothing happens.  A store
    without the table, whose lookup raises: the search for the Black
    owned businesses makes its one request, and its table of 30 rows is
    written. *)
Lemma lookup_decides_fetch_witness :
  process_location Sample.json_dumps "Austin, TX" None
    (Sample.thirty, SampleStore.austin_loaded)
  = (Ok tt, (Sample.thirty, SampleStore.austin_loaded))
  /\ process_location Sample.json_dumps "Austin, TX" (Some "Black owned")
       (Sample.thirty, SampleStore.no_table)
     = (Ok tt,
        (answered
           (page_url_of (yelp_search_url "Austin, TX" (Some "Black owned"))
              50 0)
           Sample.thirty,
         {| SampleStore.answering := [];
            SampleStore.written := [Sample.black_owned_table] |})).
Proof.
  split.
  - apply (proj1 (lookup_decides_fetch Sample.json_dumps "Austin, TX" None
                    (Sample.thirty, SampleStore.austin_loaded))).
    exists SampleStore.one_row. split; reflexivity.
  - etransitivity.
    + apply (proj2 (lookup_decides_fetch Sample.json_dumps "Austin, TX"
                      (Some "Black owned")
                      (Sample.thirty, SampleStore.no_table))).
      left. exists (DatabaseError "no such table"). reflexivity.
    + vm_compute. reflexivity.
Defined.

(* ================================================================== *)
(** ** Columns of a frame *)

Module PandasFacts.

Lemma lookup_replace_same name cells cols :
  mem name (map fst cols) = true ->
  lookup name (replace name cells cols) = Some cells.
Proof.
  induction cols as [|[k v] cols IH]; cbn; [discriminate|].
  destruct (String.eqb name k) eqn:E; cbn; rewrite E; [reflexivity|].
  exact IH.
Qed.

Lemma lookup_app_new {A : Type} name (v : A) cols :
  mem name (map fst cols) = false ->
  lookup name (cols ++ [(name, v)]) = Some v.
Proof.
  induction cols as [|[k x] cols IH]; cbn.
  - now rewrite String.eqb_refl.
  - destruct (String.eqb name k); [discriminate|exact IH].
Qed.

Lemma lookup_replace_other name other cells cols :
  String.eqb name other = false ->
  lookup name (replace other cells cols) = lookup name cols.
Proof.
  intros Hne. induction cols as [|[k v] cols IH]; cbn; [reflexivity|].
  destruct (String.eqb other k) eqn:E; cbn.
  - apply String.eqb_eq in E. subst k. now rewrite Hne.
  - now rewrite IH.
Qed.

Lemma lookup_app_other {A : Type} name other (v : A) cols :
  String.eqb name other = false ->
  lookup name (cols ++ [(other, v)]) = lookup name cols.
Proof.
  intros Hne. induction cols as [|[k x] cols IH]; cbn.
  - now rewrite Hne.
  - now rewrite IH.
Qed.

Lemma lookup_mem {A : Type} name (v : A) cols :
  lookup name cols = Some v -> mem name (map fst cols) = true.
Proof.
  induction cols as [|[k x] cols IH]; cbn; [discriminate|].
  destruct (String.eqb name k); [reflexivity|exact IH].
Qed.

Lemma map_fst_replace name cells cols :
  map fst (replace name cells cols) = map fst cols.
Proof.
  induction cols as [|[k v] cols IH]; cbn; [reflexivity|].
  destruct (String.eqb name k); cbn; [reflexivity|now rewrite IH].
Qed.

Lemma get_set_same name cells df :
  get_column name (set_column name cells df) = Some cells.
Proof.
  unfold get_column, set_column, column_names; cbn [columns].
  destruct (mem name (map fst (columns df))) eqn:E.
  - now apply lookup_replace_same.
  - now apply lookup_app_new.
Qed.

Lemma get_set_other name other cells df :
  String.eqb name other = false ->
  get_column name (set_column other cells df) = get_column name df.
Proof.
  intros Hne. unfold get_column, set_column; cbn [columns].
  destruct (mem other (column_names df)).
  - now apply lookup_replace_other.
  - now apply lookup_app_other.
Qed.

Lemma nrows_set name cells df : nrows (set_column name cells df) = nrows df.
Proof. reflexivity. Qed.

Lemma names_set name cells df :
  column_names (set_column name cells df)
  = add_names (column_names df) [name].
Proof.
  unfold set_column, column_names; cbn [columns add_names].
  destruct (mem name (map fst (columns df))).
  - apply map_fst_replace.
  - now rewrite map_app.
Qed.

Lemma names_set_present name cells old df :
  get_column name df = Some old ->
  column_names (set_column name cells df) = column_names df.
Proof.
  intros Hget. rewrite names_set. cbn [add_names].
  unfold column_names, get_column in *.
  now rewrite (lookup_mem _ _ _ Hget).
Qed.

Lemma add_names_cons seen name rest :
  add_names seen (name :: rest) = add_names (add_names seen [name]) rest.
Proof. cbn [add_names]. now destruct (mem name seen). Qed.

End PandasFacts.

(* ================================================================== *)
(** ** The table the fetcher returns *)

Import PandasFacts.

Ltac through_columns :=
  unfold set_scalar;
  repeat (rewrite get_set_other by reflexivity);
  try rewrite get_set_same.

(** What [assemble] returns when it returns: there were pages, and the
    table is made of their concatenation. *)
Lemma assemble_table json_dumps location term st net df net' :
  assemble json_dumps location term st net = (Ok df, net') ->
  net' = net
  /\ page_dfs st <> []
  /\ exists pages,
       concat (page_dfs st) = Ok pages
       /\ table_of_pages json_dumps location term (utc_now net)
            (is_complete_of st) pages df.
Proof.
  unfold assemble, bind, lift, timestamp_utcnow, ret. intros Hrun.
  destruct (page_dfs st) as [|p ps] eqn:Hpages; [discriminate|].
  destruct (concat (p :: ps)) as [pages|e] eqn:Hcat; [|discriminate].
  destruct (coerce_json_columns json_dumps pages) as [coerced|e] eqn:Hco;
    [|discriminate].
  injection Hrun as <- <-.
  split; [reflexivity|]. split; [discriminate|].
  exists pages. split; [reflexivity|].
  unfold coerce_json_columns, JSON_COLUMNS in Hco. cbn [select] in Hco.
  destruct (get_column "categories" pages) as [c1|] eqn:H1; [|discriminate].
  destruct (get_column "coordinates" pages) as [c2|] eqn:H2; [|discriminate].
  destruct (get_column "transactions" pages) as [c3|] eqn:H3; [|discriminate].
  destruct (get_column "location" pages) as [c4|] eqn:H4; [|discriminate].
  injection Hco as <-. cbn [map fst snd assign fold_left].
  unfold table_of_pages, JSON_COLUMNS, METADATA_COLUMNS.
  split; [reflexivity|]. split.
  { repeat constructor.
    - exists c1. split; [assumption|]. now through_columns.
    - exists c2. split; [assumption|]. now through_columns.
    - exists c3. split; [assumption|]. now through_columns.
    - exists c4. split; [assumption|]. now through_columns. }
  split; [now through_columns|]. split; [now through_columns|].
  split; [now through_columns|]. split; [now through_columns|].
  split.
  - unfold set_scalar. rewrite 4 names_set.
    rewrite (names_set_present "location" _ c4) by now through_columns.
    rewrite (names_set_present "transactions" _ c3) by now through_columns.
    rewrite (names_set_present "coordinates" _ c2) by now through_columns.
    rewrite (names_set_present "categories" _ c1) by assumption.
    now rewrite 3 (add_names_cons _ _ (_ :: _)).
  - intros name Hmem. cbn [mem existsb app] in Hmem.
    repeat (apply orb_false_iff in Hmem; destruct Hmem as [? Hmem]).
    unfold set_scalar.
    now repeat (rewrite get_set_other by assumption).
Qed.

(** Every page the loop accumulates has rows. *)
Lemma handled_pages_have_rows page_url response st st' :
  handled page_url response st st' ->
  Forall (fun page => nrows page <> 0%nat) (page_dfs st) ->
  Forall (fun page => nrows page <> 0%nat) (page_dfs st').
Proof.
  intros [N|total E T|total bs E T NE] Hrows; cbn [page_dfs];
    try assumption.
  apply Forall_app. split; [assumption|].
  constructor; [|constructor].
  cbn. destruct bs; [congruence|discriminate].
Qed.

Lemma fetch_pages_have_rows search_url :
  forall fuel st net st' net',
    Forall (fun page => nrows page <> 0%nat) (page_dfs st) ->
    fetch_pages fuel search_url st net = (Ok st', net') ->
    Forall (fun page => nrows page <> 0%nat) (page_dfs st').
Proof.
  induction fuel as [|fuel IH]; intros st net st' net' Hrows Hrun.
  - now injection Hrun as <- <-.
  - rewrite fetch_pages_step in Hrun.
    destruct (loop_guard st); [|now injection Hrun as <- <-].
    destruct (handle_response _ _ st) as [st1|e] eqn:Hr; [|discriminate].
    apply handle_response_handled in Hr.
    eapply IH; [|exact Hrun].
    eapply handled_pages_have_rows; eassumption.
Qed.

Lemma concat_rows frames pages :
  concat frames = Ok pages ->
  frames <> [] ->
  Forall (fun page => nrows page <> 0%nat) frames ->
  nrows pages <> 0%nat.
Proof.
  destruct frames as [|p ps]; [discriminate|].
  intros [= <-] _ Hrows. cbn [nrows fold_right].
  inversion Hrows as [|? ? Hp _]. lia.
Qed.

(** The fetcher never returns an empty table: a table it returns has a
    row for each business of at least one page. *)
Lemma returned_table_not_empty json_dumps location term net df net' :
  yelp_location_search json_dumps location term net = (Ok df, net') ->
  nrows df <> 0%nat.
Proof.
  unfold yelp_location_search, bind. intros Hrun.
  destruct (fetch_pages PAGE_BOUND _ initial_state net) as [[st|e] net1]
    eqn:Hloop; [|discriminate].
  apply assemble_table in Hrun.
  destruct Hrun as (_ & Hsome & pages & Hcat & Hrows & _).
  rewrite Hrows. apply (concat_rows _ _ Hcat Hsome).
  eapply fetch_pages_have_rows; [|exact Hloop]. constructor.
Qed.





(* ================================================================== *)
(** ** Further properties of the pagination loop *)

(** Running the loop for [k] and then [m] more iterations is running it
    for [k + m]. *)
Lemma fetch_pages_add search_url :
  forall k m st net,
    fetch_pages (k + m) search_url st net
    = match fetch_pages k search_url st net with
      | (Ok st', net') => fetch_pages m search_url st' net'
      | (Raise e, net') => (Raise e, net')
      end.
Proof.
  induction k as [|k IH]; intros m st net; [reflexivity|].
  cbn [Nat.add]. rewrite !fetch_pages_step.
  destruct (loop_guard st) eqn:G.
  - destruct (handle_response _ _ st) as [st1|e]; [apply IH|reflexivity].
  - now rewrite fetch_pages_stopped.
Qed.

(** A state in which the loop goes on is reached before the bound, and
    the run of the loop is its run from that state. *)
Lemma fetch_pages_resume search_url net k st net_k :
  fetch_pages k search_url initial_state net = (Ok st, net_k) ->
  loop_guard st = true ->
  exists m,
    fetch_pages PAGE_BOUND search_url initial_state net
    = fetch_pages (S m) search_url st net_k.
Proof.
  intros Hrun G.
  assert (Hlt : (k < PAGE_BOUND)%nat).
  { destruct (Nat.lt_ge_cases k PAGE_BOUND) as [Hlt|Hge]; [assumption|].
    exfalso. rewrite (fetch_pages_total _ _ _ Hge) in Hrun.
    pose proof (fetch_pages_exits search_url net st) as Hexit.
    rewrite Hrun in Hexit. specialize (Hexit eq_refl). congruence. }
  exists (PAGE_BOUND - k - 1)%nat.
  replace PAGE_BOUND with (k + S (PAGE_BOUND - k - 1))%nat at 1 by lia.
  now rewrite fetch_pages_add, Hrun.
Qed.

Lemma fetch_pages_request_count search_url :
  forall fuel st net,
  exists new,
    exchanges (snd (fetch_pages fuel search_url st net))
    = new ++ exchanges net
    /\ Z.of_nat (length new)
       <= if loop_guard st then MAX_RESULTS - running_count st else 0.
Proof.
  induction fuel as [|fuel IH]; intros st net.
  - exists []. split; [reflexivity|].
    destruct (loop_guard st) eqn:G; [|cbn; lia].
    apply loop_guard_true in G. cbn [length Z.of_nat]. lia.
  - rewrite fetch_pages_step.
    destruct (loop_guard st) eqn:G.
    2:{ exists []. split; [reflexivity|cbn; lia]. }
    pose proof (loop_guard_true _ G) as Hg.
    destruct (handle_response _ _ st) as [st1|e] eqn:Hr.
    + apply handle_response_handled in Hr.
      destruct (IH st1 (answered (page_url_of search_url (limit st)
                                     (running_count st)) net))
        as (new & Hnew & Hlen).
      exists (new ++ [(page_url_of search_url (limit st) (running_count st),
                       next_response net)]).
      split.
      * rewrite Hnew. cbn [answered exchanges]. now rewrite <- app_assoc.
      * rewrite length_app, Nat2Z.inj_add. cbn [length Z.of_nat Pos.of_succ_nat].
        destruct (handled_stops_or_advances _ _ _ _ Hr) as [G1|Hadv].
        -- rewrite G1 in Hlen. lia.
        -- destruct (loop_guard st1); lia.
    + exists [(page_url_of search_url (limit st) (running_count st),
               next_response net)].
      split; [reflexivity|]. cbn [length Z.of_nat Pos.of_succ_nat]. lia.
Qed.

(** X1.  A search makes at least one and at most 1000 page requests, and
    the first asks for 50 results at offset 0. *)
Theorem search_request_count (json_dumps : Cell -> string)
  (location : string) (term : option string) (net : Net) :
  exists later,
    exchanges (snd (yelp_location_search json_dumps location term net))
    = later
      ++ (page_url_of (yelp_search_url location term) 50 0,
          next_response net) :: exchanges net
    /\ (length later < 1000)%nat.
Proof.
  set (search_url := yelp_search_url location term).
  assert (Hloop : exists later,
             exchanges (snd (fetch_pages PAGE_BOUND search_url
                               initial_state net))
             = later ++ (page_url_of search_url 50 0, next_response net)
                        :: exchanges net
             /\ (length later < 1000)%nat).
  { unfold PAGE_BOUND. rewrite fetch_pages_step.
    change (loop_guard initial_state) with true. cbv iota.
    change (limit initial_state) with 50.
    change (running_count initial_state) with 0.
    destruct (handle_response _ _ initial_state) as [st1|e] eqn:Hr.
    - apply handle_response_handled in Hr.
      destruct (fetch_pages_request_count search_url 1000 st1
                  (answered (page_url_of search_url 50 0) net))
        as (new & Hnew & Hlen).
      exists new. split; [exact Hnew|].
      destruct (handled_stops_or_advances _ _ _ _ Hr) as [G1|Hadv].
      + rewrite G1 in Hlen. lia.
      + change (running_count initial_state) with 0 in Hadv.
        unfold MAX_RESULTS in Hlen. destruct (loop_guard st1); lia.
    - exists []. split; [reflexivity|cbn; lia]. }
  destruct Hloop as (later & Hlog & Hlen).
  exists later. split; [|assumption].
  unfold yelp_location_search, bind. fold search_url.
  destruct (fetch_pages PAGE_BOUND search_url initial_state net)
    as [[st|e] net1]; cbn [snd] in Hlog |- *.
  - now rewrite assemble_net.
  - assumption.
Qed.

Lemma running_count_advances search_url :
  forall m st net st' net',
    fetch_pages (S m) search_url st net = (Ok st', net') ->
    loop_guard st' = true ->
    running_count st < running_count st'.
Proof.
  induction m as [|m IH]; intros st net st' net' Hrun G';
    rewrite fetch_pages_step in Hrun;
    (destruct (loop_guard st) eqn:G;
     [|injection Hrun as <- <-; congruence]);
    (destruct (handle_response _ _ st) as [st1|e] eqn:Hr; [|discriminate]);
    apply handle_response_handled in Hr;
    (destruct (handled_stops_or_advances _ _ _ _ Hr) as [G1|Hadv];
     [rewrite fetch_pages_stopped in Hrun by assumption;
      injection Hrun as <- <-; congruence|]).
  - cbn in Hrun. now injection Hrun as <- <-.
  - specialize (IH _ _ _ _ Hrun G'). lia.
Qed.

(** X2.  Offsets only grow: a page request starts beyond the offset of
    every request made before it in the same search. *)
Theorem offsets_increase (search_url : string) (net : Net) (j k : nat)
  (st_j st_k : LoopState) (net_j net_k : Net) :
  (j < k)%nat ->
  fetch_pages j search_url initial_state net = (Ok st_j, net_j) ->
  fetch_pages k search_url initial_state net = (Ok st_k, net_k) ->
  loop_guard st_k = true ->
  running_count st_j < running_count st_k.
Proof.
  intros Hlt Hj Hk G.
  replace k with (j + S (k - j - 1))%nat in Hk by lia.
  rewrite fetch_pages_add, Hj in Hk.
  exact (running_count_advances _ _ _ _ _ _ Hk G).
Qed.

(** After 50 of 80 the second request starts at offset 50. *)
Lemma offsets_increase_witness :
  running_count initial_state
  < running_count
      (match fst (fetch_pages 1 (yelp_search_url "Austin, TX" None)
                    initial_state Sample.fifty_then_nothing) with
       | Ok st => st
       | Raise _ => initial_state
       end).
Proof.
  apply (offsets_increase (yelp_search_url "Austin, TX" None)
           Sample.fifty_then_nothing 0 1 _ _ Sample.fifty_then_nothing
           (snd (fetch_pages 1 (yelp_search_url "Austin, TX" None)
                   initial_state Sample.fifty_then_nothing))).
  - lia.
  - reflexivity.
  - reflexivity.
  - reflexivity.
Defined.

Lemma rows_of_app pages more :
  rows_of (pages ++ more) = (rows_of pages + rows_of more)%nat.
Proof.
  unfold rows_of.
  induction pages as [|p pages IH]; cbn [app fold_right]; [reflexivity|].
  rewrite IH. lia.
Qed.

Lemma handled_counts_rows page_url response st st' :
  handled page_url response st st' ->
  running_count st = Z.of_nat (rows_of (page_dfs st)) ->
  running_count st' = Z.of_nat (rows_of (page_dfs st')).
Proof.
  intros [N|total E T|total bs E T NE] Hcount; cbn [running_count page_dfs];
    try assumption.
  rewrite rows_of_app, Nat2Z.inj_add, Hcount. cbn. lia.
Qed.

Lemma fetch_pages_counts_rows search_url :
  forall fuel st net st' net',
    running_count st = Z.of_nat (rows_of (page_dfs st)) ->
    fetch_pages fuel search_url st net = (Ok st', net') ->
    running_count st' = Z.of_nat (rows_of (page_dfs st')).
Proof.
  induction fuel as [|fuel IH]; intros st net st' net' Hcount Hrun.
  - now injection Hrun as <- <-.
  - rewrite fetch_pages_step in Hrun.
    destruct (loop_guard st); [|now injection Hrun as <- <-].
    destruct (handle_response _ _ st) as [st1|e] eqn:Hr; [|discriminate].
    apply handle_response_handled in Hr.
    eapply IH; [|exact Hrun].
    eapply handled_counts_rows; eassumption.
Qed.

(** X3.  A table the fetcher returns has one row for each business it
    received, [running_count] of them, and at least one. *)
Theorem returned_table_rows (json_dumps : Cell -> string)
  (location : string) (term : option string) (net net' : Net)
  (df : DataFrame) :
  yelp_location_search json_dumps location term net = (Ok df, net') ->
  exists st,
    fetch_pages PAGE_BOUND (yelp_search_url location term) initial_state net
    = (Ok st, net')
    /\ Z.of_nat (nrows df) = running_count st
    /\ 0 < running_count st.
Proof.
  intros Hrun. pose proof (returned_table_not_empty _ _ _ _ _ _ Hrun) as Hne.
  unfold yelp_location_search, bind in Hrun.
  destruct (fetch_pages PAGE_BOUND _ initial_state net) as [[st|e] net1]
    eqn:Hloop; [|discriminate].
  apply assemble_table in Hrun.
  destruct Hrun as (-> & Hsome & pages & Hcat & Hrows & _).
  exists st. split; [reflexivity|].
  assert (Hcount : running_count st = Z.of_nat (rows_of (page_dfs st))).
  { eapply fetch_pages_counts_rows; [|exact Hloop]. reflexivity. }
  assert (Hpages : nrows pages = rows_of (page_dfs st)).
  { destruct (page_dfs st) as [|p ps]; [discriminate|].
    now injection Hcat as <-. }
  rewrite Hrows, Hpages, <- Hcount in *. lia.
Qed.

(** The table of [Sample.thirty] has the 30 rows received. *)
Lemma returned_table_rows_witness :
  exists st,
    fetch_pages PAGE_BOUND (yelp_search_url "Austin, TX" None) initial_state
      Sample.thirty
    = (Ok st, snd (yelp_location_search Sample.json_dumps "Austin, TX" None
                     Sample.thirty))
    /\ Z.of_nat (nrows Sample.thirty_table) = running_count st
    /\ 0 < running_count st.
Proof.
  apply (returned_table_rows Sample.json_dumps "Austin, TX" None
           Sample.thirty).
  vm_compute. reflexivity.
Defined.

(* ================================================================== *)
(** ** Errors during a search *)

Lemma stopped_is_incomplete st :
  loop_guard st = true -> is_complete_of (stopped st) = false.
Proof.
  intros G. apply loop_guard_true in G. unfold is_complete_of, stopped; cbn.
  destruct (Z.ltb_spec (running_count st) (total_count st)); [reflexivity|lia].
Qed.

(** X4.  An error response whose body is JSON, to whichever request of
    the search, ends the loop: the table is made of the pages fetched
    until then, and it is marked incomplete. *)
Theorem error_truncates_search (json_dumps : Cell -> string)
  (location : string) (term : option string) (net : Net) (k : nat)
  (st : LoopState) (net_k : Net) :
  fetch_pages k (yelp_search_url location term) initial_state net
  = (Ok st, net_k) ->
  loop_guard st = true ->
  status_code (next_response net_k) <> 200 ->
  (forall raw, text (next_response net_k) <> NotJson raw) ->
  let net' :=
    answered (page_url_of (yelp_search_url location term) (limit st)
                (running_count st)) net_k in
  yelp_location_search json_dumps location term net
  = assemble json_dumps location term (stopped st) net'
  /\ (forall df,
         fst (assemble json_dumps location term (stopped st) net') = Ok df ->
         get_column "_is_complete" df
         = Some (repeat (CStr "False") (nrows df))).
Proof.
  intros Hrun G Hs Hjson net'. split.
  - unfold yelp_location_search, bind.
    destruct (fetch_pages_resume _ _ _ _ _ Hrun G) as (m & ->).
    now rewrite error_response_stops.
  - intros df Hdf.
    destruct (assemble json_dumps location term (stopped st) net')
      as [r net2] eqn:Hasm.
    cbn [fst] in Hdf. subst r. apply assemble_table in Hasm.
    destruct Hasm as (_ & _ & pages & _ & Htable).
    rewrite (stopped_is_incomplete st G) in Htable.
    apply Htable.
Qed.

(** 50 of 80 and then HTTP 500: the table is made of the one page. *)
Lemma error_truncates_search_witness :
  yelp_location_search Sample.json_dumps "Austin, TX" None
    Scenario.fifty_then_error
  = assemble Sample.json_dumps "Austin, TX" None
      (stopped Scenario.after_fifty)
      (answered (page_url_of (yelp_search_url "Austin, TX" None) 30 50)
         (answered (page_url_of (yelp_search_url "Austin, TX" None) 50 0)
            Scenario.fifty_then_error)).
Proof.
  apply (error_truncates_search Sample.json_dumps "Austin, TX" None
           Scenario.fifty_then_error 1 Scenario.after_fifty
           (answered (page_url_of (yelp_search_url "Austin, TX" None) 50 0)
              Scenario.fifty_then_error)).
  - reflexivity.
  - reflexivity.
  - vm_compute. discriminate.
  - intros raw. vm_compute. discriminate.
Defined.

(** X5.  An error response whose body is not JSON makes the search raise
    [JSONDecodeError], whatever was fetched before it. *)
Theorem undecodable_error_raises (json_dumps : Cell -> string)
  (location : string) (term : option string) (net : Net) (k : nat)
  (st : LoopState) (net_k : Net) (raw : string) :
  fetch_pages k (yelp_search_url location term) initial_state net
  = (Ok st, net_k) ->
  loop_guard st = true ->
  status_code (next_response net_k) <> 200 ->
  text (next_response net_k) = NotJson raw ->
  yelp_location_search json_dumps location term net
  = (Raise JSONDecodeError,
     answered (page_url_of (yelp_search_url location term) (limit st)
                 (running_count st)) net_k).
Proof.
  intros Hrun G Hs Ht. unfold yelp_location_search, bind.
  destruct (fetch_pages_resume _ _ _ _ _ Hrun G) as (m & ->).
  rewrite fetch_pages_step, G. unfold handle_response.
  destruct (Z.eqb_spec (status_code (next_response net_k)) 200);
    [contradiction|].
  now rewrite Ht.
Qed.

(** 50 of 80 and then a 502 with an HTML body. *)
Lemma undecodable_error_raises_witness :
  fst (yelp_location_search Sample.json_dumps "Austin, TX" None
         Scenario.fifty_then_gateway)
  = Raise JSONDecodeError.
Proof.
  rewrite (undecodable_error_raises Sample.json_dumps "Austin, TX" None
             Scenario.fifty_then_gateway 1
             Scenario.after_fifty
             (answered (page_url_of (yelp_search_url "Austin, TX" None)
                          50 0) Scenario.fifty_then_gateway)
             "<html><body>502 Bad Gateway</body></html>").
  - reflexivity.
  - reflexivity.
  - reflexivity.
  - vm_compute. discriminate.
  - reflexivity.
Defined.

Lemma search_without_first_page json_dumps location term net :
  no_businesses (next_response net) ->
  yelp_location_search json_dumps location term net
  = (Raise (KeyError "categories"),
     answered (page_url_of (yelp_search_url location term) 50 0) net).
Proof.
  intros [[Hs Hjson]|[Hs [total Ht]]]; unfold yelp_location_search, bind,
    PAGE_BOUND.
  - rewrite error_response_stops by (assumption || reflexivity).
    now rewrite assemble_no_pages.
  - rewrite (empty_page_stops _ _ _ total) by (assumption || reflexivity).
    now rewrite assemble_no_pages.
Qed.

(** X6.  A first request that brings no business (an error with a JSON
    body, or a page without businesses) makes the search raise
    [KeyError] after that one request: no table is returned for a
    location without results. *)
Theorem no_first_page_raises (json_dumps : Cell -> string)
  (location : string) (term : option string) (net : Net) :
  no_businesses (next_response net) ->
  yelp_location_search json_dumps location term net
  = (Raise (KeyError "categories"),
     answered (page_url_of (yelp_search_url location term) 50 0) net).
Proof. apply search_without_first_page. Qed.

(** A location for which the API announces and returns nothing. *)
Lemma no_first_page_raises_witness :
  yelp_location_search Sample.json_dumps "Nowhere, ZZ" None
    (Sample.net_of (fun _ => Sample.page 0 0))
  = (Raise (KeyError "categories"),
     answered (page_url_of (yelp_search_url "Nowhere, ZZ" None) 50 0)
       (Sample.net_of (fun _ => Sample.page 0 0))).
Proof.
  apply no_first_page_raises.
  right. split; [reflexivity|]. exists 0. reflexivity.
Defined.

(* ================================================================== *)
(** ** A server that pages faithfully *)

Lemma serving_step search_url total net k st net_k :
  serves total net ->
  serving_invariant total net k st net_k ->
  loop_guard st = true ->
  exists st1,
    handle_response (page_url_of search_url (limit st) (running_count st))
      (next_response net_k) st = Ok st1
    /\ running_count st < running_count st1
    /\ serving_invariant total net (S k) st1
         (answered (page_url_of search_url (limit st) (running_count st))
            net_k).
Proof.
  intros Hserves (Hresp & Hlen & Htot & Hrun & Hlim & Hprev) G.
  apply loop_guard_true in G. unfold MAX_RESULTS in *.
  assert (Hbelow : 50 * Z.of_nat k < Z.min total 1000).
  { unfold next_limit, MAX_LIMIT, MAX_RESULTS in Hlim.
    destruct (Z.leb_spec (running_count st + 50) (Z.min total 1000)); lia. }
  destruct (Hserves k) as (Hs & bs & Ht & Hbs); [lia|].
  assert (Hnext : next_response net_k
                  = responses net (length (exchanges net) + k)).
  { unfold next_response. now rewrite Hresp, Hlen. }
  rewrite <- Hnext in Hs, Ht.
  assert (Hgood : good_page (limit st) (next_response net_k)).
  { split; [assumption|]. exists total, bs. split; [assumption|].
    unfold next_limit, MAX_LIMIT, MAX_RESULTS in Hlim.
    destruct (Z.leb_spec (running_count st + 50) (Z.min total 1000)); lia. }
  destruct (handle_good_page
              (page_url_of search_url (limit st) (running_count st))
              _ _ Hgood) as (total' & bs' & Ht' & Hbs' & Hr).
  rewrite Ht in Ht'. injection Ht' as <- <-.
  eexists. split; [exact Hr|].
  cbn [running_count limit total_count]. split; [lia|].
  repeat split; cbn [running_count limit total_count answered exchanges
                     responses length]; try assumption;
    unfold MAX_RESULTS; rewrite ?Nat2Z.inj_succ; lia.
Qed.

Lemma serving_run search_url total net :
  serves total net ->
  forall fuel k st net_k,
    serving_invariant total net k st net_k ->
    (Z.to_nat (MAX_RESULTS - running_count st) < fuel)%nat ->
    exists st' net' n,
      fetch_pages fuel search_url st net_k = (Ok st', net')
      /\ serving_invariant total net n st' net'
      /\ loop_guard st' = false.
Proof.
  intros Hserves.
  induction fuel as [|fuel IH]; intros k st net_k Hinv Hfuel; [lia|].
  rewrite fetch_pages_step.
  destruct (loop_guard st) eqn:G.
  2:{ exists st, net_k, k. repeat split; try assumption; apply Hinv. }
  destruct (serving_step search_url _ _ _ _ _ Hserves Hinv G)
    as (st1 & Hr & Hadv & Hinv1).
  rewrite Hr. apply loop_guard_true in G.
  apply (IH (S k)); [assumption|]. unfold MAX_RESULTS in *. lia.
Qed.

(** X7.  From a server that holds [total] results and pages them
    faithfully, the loop fetches [min(total, 1000)] of them, in as many
    requests as pages of 50 are needed for that, and finds the search
    complete exactly when [total] is at most 1000. *)
Theorem faithful_server_outcome (search_url : string) (total : Z)
  (net : Net) :
  0 < total ->
  serves total net ->
  exists st net' n,
    fetch_pages PAGE_BOUND search_url initial_state net = (Ok st, net')
    /\ running_count st = Z.min total 1000
    /\ total_count st = total
    /\ is_complete_of st = (total <=? 1000)
    /\ length (exchanges net') = (length (exchanges net) + n)%nat
    /\ 50 * (Z.of_nat n - 1) < Z.min total 1000 <= 50 * Z.of_nat n.
Proof.
  intros Hpos Hserves.
  (* the first request, from the state before the loop *)
  destruct (Hserves 0%nat) as (Hs & bs & Ht & Hbs); [cbn; lia|].
  rewrite Nat.add_0_r in Hs, Ht. fold (next_response net) in Hs, Ht.
  assert (Hgood : good_page (limit initial_state) (next_response net)).
  { split; [assumption|]. exists total, bs. split; [assumption|].
    cbn in Hbs |- *. unfold MAX_LIMIT. lia. }
  destruct (handle_good_page (page_url_of search_url 50 0) _ _ Hgood)
    as (total' & bs' & Ht' & Hbs' & Hr).
  rewrite Ht in Ht'. injection Ht' as <- <-.
  unfold PAGE_BOUND. rewrite fetch_pages_step.
  change (loop_guard initial_state) with true. cbv iota.
  change (limit initial_state) with 50 in *.
  change (running_count initial_state) with 0 in *.
  rewrite Hr.
  match goal with
  | |- context [fetch_pages _ _ ?s ?w] =>
      destruct (serving_run search_url total net Hserves 1000 1 s w)
        as (st' & net' & n & Hrun & Hinv & G)
  end.
  - unfold serving_invariant, MAX_RESULTS.
    cbn [running_count limit total_count answered exchanges responses
         length]. cbn in Hbs.
    repeat split; try lia; try (now rewrite Nat.add_1_r).
  - cbn [running_count]. unfold MAX_RESULTS. lia.
  - exists st', net', n. split; [exact Hrun|].
    destruct Hinv as (_ & Hlen & Htot & Hcount & Hlim & Hprev).
    assert (Hexit : Z.min (total_count st') MAX_RESULTS
                    <= running_count st' <= MAX_RESULTS).
    { apply paging_invariant_exit; [|assumption].
      split; [now rewrite Htot|]. unfold MAX_RESULTS in *. lia. }
    rewrite Htot in Hexit. unfold MAX_RESULTS in *.
    repeat split; try assumption; try lia.
    unfold is_complete_of. rewrite Htot.
    destruct (Z.ltb_spec (running_count st') total);
      destruct (Z.leb_spec total 1000); lia.
Qed.

(** 80 results served as 50 and 30: two requests, all 80 fetched. *)
Lemma faithful_server_outcome_witness :
  exists st net' n,
    fetch_pages PAGE_BOUND (yelp_search_url "Austin, TX" None) initial_state
      Scenario.eighty = (Ok st, net')
    /\ running_count st = Z.min 80 1000
    /\ total_count st = 80
    /\ is_complete_of st = (80 <=? 1000)
    /\ length (exchanges net')
       = (length (exchanges Scenario.eighty) + n)%nat
    /\ 50 * (Z.of_nat n - 1) < Z.min 80 1000 <= 50 * Z.of_nat n.
Proof.
  apply faithful_server_outcome; [lia|].
  intros [|[|n]] Hn.
  - split; [reflexivity|].
    exists (repeat (Sample.business "b") 50). split; reflexivity.
  - split; [reflexivity|].
    exists (repeat (Sample.business "b") 30). split; reflexivity.
  - lia.
Defined.

(* ================================================================== *)
(** ** Splitting and joining strings *)

Module PyFacts.

Lemma append_assoc (a b c : string) :
  ((a ++ b) ++ c = a ++ (b ++ c))%string.
Proof.
  induction a as [|x a IH]; cbn; [reflexivity|now rewrite IH].
Qed.

Lemma append_nil_r (a : string) : (a ++ "" = a)%string.
Proof.
  induction a as [|x a IH]; cbn; [reflexivity|now rewrite IH].
Qed.

Lemma prefix_append (sep s : string) :
  String.prefix sep s = true -> exists t, s = (sep ++ t)%string.
Proof.
  revert s. induction sep as [|x sep IH]; intros s Hpre.
  - now exists s.
  - destruct s as [|y s]; [discriminate|]. cbn in Hpre.
    destruct (Ascii.ascii_dec x y) as [->|]; [|discriminate].
    destruct (IH s Hpre) as [t ->]. now exists t.
Qed.

Lemma split_from_not_nil sep :
  forall s skip cur, split_from sep skip s cur <> [].
Proof.
  induction s as [|c s IH]; intros skip cur; cbn [split_from];
    [intros Heq; discriminate Heq|].
  destruct skip; [|apply IH].
  destruct (String.prefix sep (String c s));
    [intros Heq; discriminate Heq|apply IH].
Qed.

Lemma split_from_skip sep t :
  forall u cur,
    split_from sep (String.length u) (u ++ t) cur = split_from sep 0 t cur.
Proof.
  induction u as [|c u IH]; intros cur; [reflexivity|apply IH].
Qed.

Lemma join_cons sep x parts :
  parts <> [] -> join sep (x :: parts) = (x ++ sep ++ join sep parts)%string.
Proof.
  destruct parts; [congruence|reflexivity].
Qed.

Lemma length_append (a b : string) :
  String.length (a ++ b) = (String.length a + String.length b)%nat.
Proof.
  induction a as [|x a IH]; cbn; [reflexivity|now rewrite IH].
Qed.

Lemma join_split_from sep :
  sep <> "" ->
  forall n s cur,
    (String.length s <= n)%nat ->
    join sep (split_from sep 0 s cur) = (cur ++ s)%string.
Proof.
  intros Hsep. induction n as [|n IH]; intros s cur Hlen.
  - destruct s; [|cbn in Hlen; lia]. cbn. now rewrite append_nil_r.
  - destruct s as [|c s]; [cbn; now rewrite append_nil_r|].
    cbn [split_from].
    destruct (String.prefix sep (String c s)) eqn:Hpre.
    + destruct (prefix_append _ _ Hpre) as [t Ht].
      destruct sep as [|x sep']; [congruence|].
      cbn in Ht. injection Ht as -> ->.
      replace (String.length (String x sep') - 1)%nat
        with (String.length sep') by (cbn [String.length]; lia).
      rewrite split_from_skip.
      rewrite join_cons by apply split_from_not_nil.
      rewrite IH.
      * reflexivity.
      * cbn in Hlen. rewrite length_append in Hlen. lia.
    + rewrite IH by (cbn in Hlen; lia).
      now rewrite append_assoc.
Qed.

Lemma split_without sep :
  forall s cur,
    contains sep s = false -> split_from sep 0 s cur = [(cur ++ s)%string].
Proof.
  induction s as [|c s IH]; intros cur Hno.
  - cbn. now rewrite append_nil_r.
  - cbn [contains] in Hno. apply orb_false_iff in Hno.
    destruct Hno as [Hpre Hno]. cbn [split_from]. rewrite Hpre.
    rewrite IH by assumption. now rewrite append_assoc.
Qed.

Lemma split_with sep :
  sep <> "" ->
  forall s cur,
    contains sep s = true ->
    exists first second rest,
      split_from sep 0 s cur = first :: second :: rest.
Proof.
  intros Hsep. induction s as [|c s IH]; intros cur Hyes.
  - cbn in Hyes. destruct sep; [congruence|discriminate].
  - cbn [contains] in Hyes. cbn [split_from].
    destruct (String.prefix sep (String c s)) eqn:Hpre.
    + pose proof (split_from_not_nil sep s (String.length sep - 1) "")
        as Hne.
      destruct (split_from sep (String.length sep - 1) s "")
        as [|second rest]; [congruence|].
      now exists cur, second, rest.
    + apply IH. exact Hyes.
Qed.

End PyFacts.

(** X8.  Splitting at a separator and joining with it gives the string
    back.  So the cities the driver makes of its arguments, joined by
    [";"], are the arguments joined by spaces: nothing is trimmed, and a
    city that follows ["; "] keeps the space in front of it. *)
Theorem split_then_join (sep s : string) :
  sep <> "" -> join sep (split sep s) = s.
Proof.
  intros Hsep. unfold split.
  now rewrite (PyFacts.join_split_from sep Hsep (String.length s)).
Qed.

Lemma split_then_join_witness :
  join ";" (split ";" (join " " ["Austin,"; "TX;"; "Dallas,"; "TX"]))
  = join " " ["Austin,"; "TX;"; "Dallas,"; "TX"]
  /\ split ";" (join " " ["Austin,"; "TX;"; "Dallas,"; "TX"])
     = ["Austin, TX"; " Dallas, TX"].
Proof.
  split.
  - apply split_then_join. discriminate.
  - reflexivity.
Defined.

(* ================================================================== *)
(** ** Further properties of the prober and the expander *)

(** X9.  The prober and the expander make one request, the probe, whatever
    the answer and whether they return or raise; and the probe answered
    200 with a body that is not JSON is not taken for 0: both raise
    [JSONDecodeError]. *)
Theorem probe_is_one_request (zip_db : list Zipcode) (city : string)
  (term : option string) (net : Net) :
  snd (yelp_expected_result_count city term net)
  = answered (yelp_search_url city term) net
  /\ snd (yelp_city_locations zip_db city term net)
     = answered (yelp_search_url city term) net
  /\ (forall raw,
         status_code (next_response net) = 200 ->
         text (next_response net) = NotJson raw ->
         fst (yelp_expected_result_count city term net)
         = Raise JSONDecodeError
         /\ fst (yelp_city_locations zip_db city term net)
            = Raise JSONDecodeError).
Proof.
  assert (Hprobe : snd (yelp_expected_result_count city term net)
                   = answered (yelp_search_url city term) net).
  { unfold yelp_expected_result_count, bind, requests_get.
    now destruct (status_code (next_response net) =? 200). }
  split; [exact Hprobe|]. split.
  - unfold yelp_city_locations, bind.
    destruct (yelp_expected_result_count city term net) as [[total|e] net1];
      cbn [snd] in Hprobe |- *; [|assumption].
    destruct (total >? 1000); [|assumption]. unfold lift, ret.
    destruct (index (split ", " city) 0); [|assumption].
    now destruct (index (split ", " city) 1).
  - intros raw Hs Ht.
    assert (Hraise : fst (yelp_expected_result_count city term net)
                     = Raise JSONDecodeError).
    { unfold yelp_expected_result_count, bind, requests_get.
      now rewrite Hs, Ht. }
    split; [exact Hraise|].
    unfold yelp_city_locations, bind.
    destruct (yelp_expected_result_count city term net) as [r net1].
    cbn [fst] in Hraise. now subst r.
Qed.

(** A probe answered by a 200 whose body is an HTML page. *)
Lemma probe_is_one_request_witness :
  fst (yelp_city_locations Sample.zip_db "Springfield, IL" None
         (Sample.net_of
            (fun _ => {| status_code := 200; reason := "OK";
                         text := NotJson "<html></html>" |})))
  = Raise JSONDecodeError.
Proof.
  apply (proj2 (proj2 (probe_is_one_request Sample.zip_db "Springfield, IL"
                         None _)) "<html></html>"); reflexivity.
Defined.

(** X10.  Above 1000 probed results the expander raises [IndexError]
    exactly when the city string does not contain [", "]; the zip table is
    not looked at before. *)
Theorem expander_needs_state_code (zip_db : list Zipcode) (city : string)
  (term : option string) (net net' : Net) (total : Z) :
  yelp_expected_result_count city term net = (Ok total, net') ->
  1000 < total ->
  (contains ", " city = false ->
   yelp_city_locations zip_db city term net = (Raise IndexError, net'))
  /\ (contains ", " city = true ->
      exists locations,
        yelp_city_locations zip_db city term net
        = (Ok (locations, total), net')).
Proof.
  intros Hprobe Hbig. unfold yelp_city_locations, bind. rewrite Hprobe.
  destruct (Z.gtb_spec total 1000); [|lia]. split.
  - intros Hno. unfold split.
    now rewrite (PyFacts.split_without ", " city "" Hno).
  - intros Hyes. unfold split.
    destruct (PyFacts.split_with ", " ltac:(discriminate) city "" Hyes)
      as (first & second & rest & ->).
    eexists. reflexivity.
Qed.

(** A city given without its state, with 1500 results. *)
Lemma expander_needs_state_code_witness :
  yelp_city_locations Sample.zip_db "Springfield" None Sample.over_cap
  = (Raise IndexError,
     answered (yelp_search_url "Springfield" None) Sample.over_cap)
  /\ exists locations,
       yelp_city_locations Sample.zip_db "Springfield, IL" None
         Sample.over_cap
       = (Ok (locations, 1500),
          answered (yelp_search_url "Springfield, IL" None) Sample.over_cap).
Proof.
  split.
  - apply (proj1 (expander_needs_state_code Sample.zip_db "Springfield" None
                    Sample.over_cap _ 1500 eq_refl ltac:(lia))).
    reflexivity.
  - apply (proj2 (expander_needs_state_code Sample.zip_db "Springfield, IL"
                    None Sample.over_cap _ 1500 eq_refl ltac:(lia))).
    reflexivity.
Defined.

(* ================================================================== *)
(** ** Further properties of the driver *)

Lemma expander_small zip_db city term net total net' :
  yelp_expected_result_count city term net = (Ok total, net') ->
  total <= 1000 ->
  yelp_city_locations zip_db city term net = (Ok ([city], total), net').
Proof.
  intros Hprobe Hle. unfold yelp_city_locations, bind. rewrite Hprobe.
  destruct (Z.gtb_spec total 1000); [lia|reflexivity].
Qed.

(** X11.  A city above 1000 results for whose name and state the zip table
    has no entry is passed over in silence: after the probe the driver
    makes no request and writes nothing for it. *)
Theorem unknown_city_is_skipped {Con : Type} `{Connection Con}
  (zip_db : list Zipcode) (json_dumps : Cell -> string) (city : string)
  (term : option string) (w : World) (total : Z) (net' : Net)
  (city_name state : string) (rest : list string) :
  yelp_expected_result_count city term (fst w) = (Ok total, net') ->
  1000 < total ->
  split ", " city = city_name :: state :: rest ->
  filter_by zip_db city_name state = [] ->
  process_city_term zip_db json_dumps city term w = (Ok tt, (net', snd w)).
Proof.
  intros Hprobe Hbig Hsplit Hnone.
  unfold process_city_term, yelp_city_locations, bind. rewrite Hprobe.
  destruct (Z.gtb_spec total 1000); [|lia].
  rewrite Hsplit. cbn [index nth_error lift]. rewrite Hnone. reflexivity.
Qed.

(** The second city of ["Chicago, IL; Springfield, IL"] is
    [" Springfield, IL"], and the table has no city [" Springfield"]. *)
Lemma unknown_city_is_skipped_witness :
  process_city_term Sample.zip_db Sample.json_dumps " Springfield, IL" None
    (Sample.over_cap, mkDummy "foo" "bar")
  = (Ok tt,
     (answered (yelp_search_url " Springfield, IL" None) Sample.over_cap,
      mkDummy "foo" "bar")).
Proof.
  apply (unknown_city_is_skipped Sample.zip_db Sample.json_dumps
           " Springfield, IL" None (Sample.over_cap, mkDummy "foo" "bar")
           1500 _ " Springfield" "IL" []).
  - reflexivity.
  - lia.
  - reflexivity.
  - reflexivity.
Defined.

(** X12.  Without [--black_owned] and without [--all] there is no term to
    search for: the script makes no request and writes nothing, whatever
    the cities. *)
Theorem no_flag_no_work {Con : Type} `{Connection Con}
  (zip_db : list Zipcode) (json_dumps : Cell -> string)
  (args_cities : list string) (w : World) :
  main zip_db json_dumps args_cities false false w = (Ok tt, w).
Proof.
  unfold main. cbn [terms_of app].
  induction (split ";" (join " " args_cities)) as [|city cities IH];
    [reflexivity|exact IH].
Qed.

Lemma first_location_raises {Con : Type} `{Connection Con}
  (json_dumps : Cell -> string) (location : string) (term : option string)
  (w : World) :
  (forall df,
      read_sql (loaded_query location (term_or_empty term)) (snd w) = Ok df ->
      empty df = true) ->
  no_businesses (next_response (fst w)) ->
  process_location json_dumps location term w
  = (Raise (KeyError "categories"),
     (answered (page_url_of (yelp_search_url location term) 50 0) (fst w),
      snd w)).
Proof.
  intros Hlookup Hnone. unfold process_location.
  assert (Hempty : empty match read_sql (loaded_query location
                                           (term_or_empty term)) (snd w) with
                         | Ok df => df
                         | Raise _ => empty_frame
                         end = true).
  { destruct (read_sql _ (snd w)) as [df|e]; [now apply Hlookup|reflexivity]. }
  rewrite Hempty. unfold fetch_and_append.
  now rewrite search_without_first_page.
Qed.

(** X13.  The driver catches nothing that the search raises.  When the
    first city has at most 1000 results, is not found in the store, and
    its first page request brings no business, the script ends there with
    [KeyError]: two requests were made, nothing was written, and the
    other terms and cities are not looked at. *)
Theorem empty_city_aborts_run {Con : Type} `{Connection Con}
  (zip_db : list Zipcode) (json_dumps : Cell -> string)
  (args_cities : list string) (black_owned all : bool) (w : World)
  (city : string) (cities : list string) (term : option string)
  (terms : list (option string)) (total : Z) (net1 : Net) :
  split ";" (join " " args_cities) = city :: cities ->
  terms_of black_owned all = term :: terms ->
  yelp_expected_result_count city term (fst w) = (Ok total, net1) ->
  total <= 1000 ->
  (forall df,
      read_sql (loaded_query city (term_or_empty term)) (snd w) = Ok df ->
      empty df = true) ->
  no_businesses (next_response net1) ->
  main zip_db json_dumps args_cities black_owned all w
  = (Raise (KeyError "categories"),
     (answered (page_url_of (yelp_search_url city term) 50 0) net1, snd w)).
Proof.
  intros Hcities Hterms Hprobe Hle Hlookup Hnone.
  unfold main. rewrite Hcities, Hterms. cbn [for_each].
  unfold process_city_term.
  rewrite (expander_small zip_db _ _ _ _ _ Hprobe Hle).
  cbn [for_each].
  now rewrite (first_location_raises json_dumps city term (net1, snd w)).
Qed.

(** The script on ["Nowhere, ZZ; Austin, TX"] with [--all], when the API
    knows no business in Nowhere. *)
Lemma empty_city_aborts_run_witness :
  main Sample.zip_db Sample.json_dumps ["Nowhere,"; "ZZ;"; "Austin,"; "TX"]
    false true
    (Sample.net_of (fun _ => Sample.page 0 0), mkDummy "foo" "bar")
  = (Raise (KeyError "categories"),
     (answered (page_url_of (yelp_search_url "Nowhere, ZZ" None) 50 0)
        (answered (yelp_search_url "Nowhere, ZZ" None)
           (Sample.net_of (fun _ => Sample.page 0 0))),
      mkDummy "foo" "bar")).
Proof.
  apply (empty_city_aborts_run Sample.zip_db Sample.json_dumps
           ["Nowhere,"; "ZZ;"; "Austin,"; "TX"] false true
           (Sample.net_of (fun _ => Sample.page 0 0), mkDummy "foo" "bar")
           "Nowhere, ZZ" [" Austin, TX"] None [] 0).
  - reflexivity.
  - reflexivity.
  - reflexivity.
  - lia.
  - intros df Hdf. discriminate.
  - right. split; [reflexivity|]. exists 0. reflexivity.
Defined.

(* ================================================================== *)
(** ** The search URL *)

Module UrlFacts.

Lemma quote_byte_chars (c : ascii) :
  all_chars url_char (Urllib.quote_byte c) = true.
Proof.
  destruct c as [[] [] [] [] [] [] [] []]; vm_compute; reflexivity.
Qed.

Lemma unquote_quote_byte (c : ascii) (t : string) :
  unquote_plus (Urllib.quote_byte c ++ t) = String c (unquote_plus t).
Proof.
  destruct c as [[] [] [] [] [] [] [] []]; reflexivity.
Qed.

Lemma all_chars_append p (a b : string) :
  all_chars p (a ++ b) = all_chars p a && all_chars p b.
Proof.
  induction a as [|c a IH]; cbn; [reflexivity|].
  now rewrite IH, andb_assoc.
Qed.

Lemma all_chars_impl (p q : ascii -> bool) (s : string) :
  (forall c, p c = true -> q c = true) ->
  all_chars p s = true -> all_chars q s = true.
Proof.
  intros Himp. induction s as [|c s IH]; cbn; [reflexivity|].
  rewrite !andb_true_iff. intros [Hc Hs]. split; [now apply Himp|now apply IH].
Qed.

Lemma quote_plus_chars (s : string) :
  all_chars url_char (Urllib.quote_plus s) = true.
Proof.
  induction s as [|c s IH]; cbn; [reflexivity|].
  now rewrite all_chars_append, quote_byte_chars, IH.
Qed.

Lemma unquote_quote (s : string) :
  unquote_plus (Urllib.quote_plus s) = s.
Proof.
  induction s as [|c s IH]; cbn [Urllib.quote_plus]; [reflexivity|].
  now rewrite unquote_quote_byte, IH.
Qed.

Lemma quote_plus_inj (a b : string) :
  Urllib.quote_plus a = Urllib.quote_plus b -> a = b.
Proof.
  intros Heq. rewrite <- (unquote_quote a), <- (unquote_quote b).
  now rewrite Heq.
Qed.

Lemma quote_plus_no_amp (s : string) :
  all_chars not_amp (Urllib.quote_plus s) = true.
Proof.
  apply (all_chars_impl url_char); [|apply quote_plus_chars].
  intros c. destruct c as [[] [] [] [] [] [] [] []]; vm_compute;
    intros H; (reflexivity || discriminate).
Qed.

Lemma append_inj_l (a x y : string) :
  (a ++ x = a ++ y)%string -> x = y.
Proof.
  induction a as [|c a IH]; cbn; [trivial|].
  intros [= Heq]. now apply IH.
Qed.

(** Two strings without [&] that are followed by one are the same. *)
Lemma split_at_amp (a b r r' : string) :
  all_chars not_amp a = true ->
  all_chars not_amp b = true ->
  (a ++ String "&" r = b ++ String "&" r')%string ->
  a = b /\ r = r'.
Proof.
  revert b. induction a as [|c a IH]; intros [|d b] Ha Hb Heq; cbn in *.
  - now injection Heq as ->.
  - injection Heq as <- _. discriminate.
  - injection Heq as -> _. discriminate.
  - apply andb_true_iff in Ha. apply andb_true_iff in Hb.
    injection Heq as -> Heq.
    destruct (IH b (proj2 Ha) (proj2 Hb) Heq) as [-> ->]. now split.
Qed.

End UrlFacts.

(** X14.  What [quote_plus] writes for a location or a term is made of
    letters, digits, [_.-~], [%] and [+] only, and reading it back gives
    the string: the encoding can bring no separator into the query and
    loses nothing. *)
Theorem quote_plus_round_trip (s : string) :
  all_chars url_char (Urllib.quote_plus s) = true
  /\ unquote_plus (Urllib.quote_plus s) = s.
Proof.
  split; [apply UrlFacts.quote_plus_chars|apply UrlFacts.unquote_quote].
Qed.

Lemma truthy_term_or_empty term :
  truthy term = false -> term_or_empty term = "".
Proof.
  destruct term as [t|]; [|reflexivity]. unfold term_or_empty.
  now intros ->.
Qed.

(** X15.  Two searches have the same URL only if they have the same
    location and the same term, no term and the empty term being the
    same. *)
Theorem search_url_injective (location location' : string)
  (term term' : option string) :
  yelp_search_url location term = yelp_search_url location' term' ->
  location = location' /\ term_or_empty term = term_or_empty term'.
Proof.
  assert (Hloc : forall a b,
             ("&location=" ++ Urllib.quote_plus a ++ "&sort=distance"
              = "&location=" ++ Urllib.quote_plus b ++ "&sort=distance")%string
             -> a = b).
  { intros a b Heq. apply UrlFacts.append_inj_l in Heq.
    apply UrlFacts.split_at_amp in Heq;
      try apply UrlFacts.quote_plus_no_amp.
    now apply UrlFacts.quote_plus_inj. }
  assert (Hshape : forall l t,
             yelp_search_url l t
             = (YELP_URL
                ++ (if truthy t
                    then "&term=" ++ Urllib.quote_plus (term_or_empty t)
                           ++ "&location=" ++ Urllib.quote_plus l
                           ++ "&sort=distance"
                    else "&location=" ++ Urllib.quote_plus l
                           ++ "&sort=distance"))%string).
  { intros l [t|]; [|reflexivity]. unfold yelp_search_url, term_or_empty.
    destruct (truthy (Some t)); [|reflexivity].
    now rewrite !PyFacts.append_assoc. }
  rewrite !Hshape. intros Heq. apply UrlFacts.append_inj_l in Heq.
  destruct (truthy term) eqn:T, (truthy term') eqn:T'.
  - apply (UrlFacts.append_inj_l "&term=") in Heq.
    apply UrlFacts.split_at_amp in Heq;
      try apply UrlFacts.quote_plus_no_amp.
    destruct Heq as [Hterm Hrest]. apply UrlFacts.quote_plus_inj in Hterm.
    split; [|assumption].
    apply Hloc. cbn. now f_equal.
  - discriminate.
  - discriminate.
  - rewrite !truthy_term_or_empty by assumption.
    split; [now apply Hloc|reflexivity].
Qed.

Lemma search_url_injective_witness :
  "Austin, TX" = "Austin, TX" /\ term_or_empty (Some "") = term_or_empty None.
Proof.
  apply (search_url_injective "Austin, TX" "Austin, TX" (Some "") None).
  reflexivity.
Defined.

(* ================================================================== *)
(** ** The pages of a search and the responses they come from *)

Lemma handled_frame page_url response st st' :
  handled page_url response st st' ->
  page_dfs st' = page_dfs st ++ frame_of_exchange (page_url, response).
Proof.
  intros [N|total E T|total bs E T NE]; unfold frame_of_exchange;
    cbn [fst snd page_dfs].
  - destruct (Z.eqb_spec (status_code response) 200); [contradiction|].
    now rewrite app_nil_r.
  - rewrite E, T. cbn. now rewrite app_nil_r.
  - rewrite E, T. destruct bs; [congruence|reflexivity].
Qed.

Lemma frames_of_log_snoc log e :
  frames_of_log (log ++ [e]) = frame_of_exchange e ++ frames_of_log log.
Proof.
  unfold frames_of_log. now rewrite rev_app_distr.
Qed.

Lemma fetch_pages_frames search_url :
  forall fuel st net st' net',
    fetch_pages fuel search_url st net = (Ok st', net') ->
    exists new,
      exchanges net' = new ++ exchanges net
      /\ page_dfs st' = page_dfs st ++ frames_of_log new.
Proof.
  induction fuel as [|fuel IH]; intros st net st' net' Hrun.
  - injection Hrun as <- <-. exists []. cbn. now rewrite app_nil_r.
  - rewrite fetch_pages_step in Hrun.
    destruct (loop_guard st).
    2:{ injection Hrun as <- <-. exists []. cbn. now rewrite app_nil_r. }
    destruct (handle_response _ _ st) as [st1|e] eqn:Hr; [|discriminate].
    apply handle_response_handled, handled_frame in Hr.
    destruct (IH _ _ _ _ Hrun) as (new & Hlog & Hframes).
    exists (new ++ [(page_url_of search_url (limit st) (running_count st),
                     next_response net)]).
    split.
    + rewrite Hlog. cbn [answered exchanges]. now rewrite <- app_assoc.
    + now rewrite Hframes, Hr, frames_of_log_snoc, app_assoc.
Qed.

(** X16.  The pages a search accumulates are exactly the responses with
    status 200 and at least one business that its requests received, in
    the order of the requests, each with the URL of its own request in
    [_page_url]. *)
Theorem pages_are_the_responses (search_url : string) (net net' : Net)
  (st : LoopState) :
  fetch_pages PAGE_BOUND search_url initial_state net = (Ok st, net') ->
  exists new,
    exchanges net' = new ++ exchanges net
    /\ page_dfs st = frames_of_log new.
Proof.
  intros Hrun. destruct (fetch_pages_frames _ _ _ _ _ _ Hrun)
    as (new & Hlog & Hframes).
  exists new. split; assumption.
Qed.

(** 50 of 80 and then an error: one page, from the first request. *)
Lemma pages_are_the_responses_witness :
  exists new,
    exchanges (snd (fetch_pages PAGE_BOUND (yelp_search_url "Austin, TX" None)
                      initial_state Scenario.fifty_then_error))
    = new ++ exchanges Scenario.fifty_then_error
    /\ [page_frame (page_url_of (yelp_search_url "Austin, TX" None) 50 0)
          (repeat (Sample.business "b") 50)]
       = frames_of_log new.
Proof.
  apply (pages_are_the_responses (yelp_search_url "Austin, TX" None)
           Scenario.fifty_then_error _
           {| running_count := 50; limit := 0; total_count := 80;
              page_dfs :=
                [page_frame
                   (page_url_of (yelp_search_url "Austin, TX" None) 50 0)
                   (repeat (Sample.business "b") 50)] |}).
  vm_compute. reflexivity.
Defined.

(* ================================================================== *)
(** ** When the search returns a table *)

Module ColumnFacts.

Lemma mem_app key (a b : list string) :
  mem key (a ++ b) = mem key a || mem key b.
Proof. unfold mem. apply existsb_app. Qed.

Lemma mem_add_names key :
  forall new seen, mem key (add_names seen new) = mem key seen || mem key new.
Proof.
  induction new as [|k new IH]; intros seen; cbn [add_names].
  - cbn. now rewrite orb_false_r.
  - destruct (mem k seen) eqn:Hk; rewrite IH.
    + cbn [mem existsb]. fold (mem key new).
      destruct (String.eqb_spec key k) as [->|]; [|reflexivity].
      rewrite Hk. reflexivity.
    + rewrite mem_app. cbn [mem existsb]. fold (mem key new).
      now rewrite orb_false_r, orb_assoc.
Qed.

Lemma mem_fold_add_names key :
  forall ll acc,
    mem key (fold_left add_names ll acc)
    = mem key acc || existsb (mem key) ll.
Proof.
  induction ll as [|l ll IH]; intros acc; cbn [fold_left existsb].
  - now rewrite orb_false_r.
  - now rewrite IH, mem_add_names, orb_assoc.
Qed.

Lemma mem_union_names key ll :
  mem key (union_names ll) = existsb (mem key) ll.
Proof. unfold union_names. now rewrite mem_fold_add_names. Qed.

Lemma existsb_map {A B : Type} (f : A -> B) (p : B -> bool) (l : list A) :
  existsb p (map f l) = existsb (fun a => p (f a)) l.
Proof.
  induction l as [|a l IH]; cbn; [reflexivity|now rewrite IH].
Qed.

Lemma existsb_flat_map {A B : Type} (f : A -> list B) (p : B -> bool)
  (l : list A) :
  existsb p (flat_map f l) = existsb (fun a => existsb p (f a)) l.
Proof.
  induction l as [|a l IH]; cbn; [reflexivity|].
  now rewrite existsb_app, IH.
Qed.

Lemma existsb_rev {A : Type} (p : A -> bool) (l : list A) :
  existsb p (rev l) = existsb p l.
Proof.
  induction l as [|a l IH]; cbn; [reflexivity|].
  rewrite existsb_app, IH. cbn. now rewrite orb_false_r, orb_comm.
Qed.

Lemma names_of_map {A : Type} (f : string -> A) (names : list string) :
  map fst (map (fun k => (k, f k)) names) = names.
Proof.
  induction names as [|k names IH]; cbn; [reflexivity|now rewrite IH].
Qed.

Lemma mem_lookup {A : Type} key (cols : list (string * A)) :
  mem key (map fst cols) = true -> exists v, lookup key cols = Some v.
Proof.
  induction cols as [|[k x] cols IH]; cbn; [discriminate|].
  destruct (String.eqb key k); [now exists x|exact IH].
Qed.

Lemma no_mem_no_lookup {A : Type} key (cols : list (string * A)) :
  mem key (map fst cols) = false -> lookup key cols = None.
Proof.
  induction cols as [|[k x] cols IH]; cbn; [reflexivity|].
  destruct (String.eqb key k); [discriminate|exact IH].
Qed.

(** The keys of the businesses are the columns of their frame. *)
Lemma page_frame_has key page_url businesses :
  String.eqb key "_page_url" = false ->
  mem key (column_names (page_frame page_url businesses))
  = existsb (fun b => mem key (map fst b)) businesses.
Proof.
  intros Hkey. unfold page_frame, set_scalar.
  rewrite PandasFacts.names_set, mem_add_names.
  cbn [mem existsb]. rewrite Hkey. cbn [orb]. rewrite orb_false_r.
  unfold column_names, from_records; cbn [columns].
  now rewrite names_of_map, mem_union_names, existsb_map.
Qed.

Lemma exchange_frame_has key e :
  String.eqb key "_page_url" = false ->
  existsb (fun df => mem key (column_names df)) (frame_of_exchange e)
  = brings_key key e.
Proof.
  intros Hkey. unfold frame_of_exchange, brings_key.
  destruct (status_code (snd e) =? 200); [|reflexivity].
  destruct (search_result (text (snd e))) as [[total [|b bs]]|];
    try reflexivity.
  cbn [existsb andb]. rewrite orb_false_r.
  now apply page_frame_has.
Qed.

Lemma log_frames_have key log :
  String.eqb key "_page_url" = false ->
  existsb (fun df => mem key (column_names df)) (frames_of_log log)
  = existsb (brings_key key) log.
Proof.
  intros Hkey. unfold frames_of_log.
  rewrite existsb_flat_map, existsb_rev.
  induction log as [|e log IH]; cbn [existsb]; [reflexivity|].
  now rewrite IH, exchange_frame_has.
Qed.

(** The columns of the frame that line 141-144 makes of the pages. *)
Lemma pages_have key frames pages :
  match frames with
  | [] => Ok empty_frame
  | _ => concat frames
  end = Ok pages ->
  mem key (column_names pages)
  = existsb (fun df => mem key (column_names df)) frames.
Proof.
  destruct frames as [|p ps]; intros [= <-]; [reflexivity|].
  unfold column_names; cbn [columns].
  rewrite names_of_map, mem_union_names.
  exact (existsb_map (fun df : DataFrame => map fst (columns df)) (mem key)
           (p :: ps)).
Qed.

Lemma select_all names df :
  forallb (fun key => mem key (column_names df)) names = true ->
  exists sub, select names df = Ok sub.
Proof.
  induction names as [|k names IH]; cbn [forallb select].
  - now exists [].
  - rewrite andb_true_iff. intros [Hk Hrest].
    destruct (mem_lookup _ _ Hk) as [cells Hcells].
    unfold get_column. rewrite Hcells.
    destruct (IH Hrest) as [sub ->]. now eexists.
Qed.

Lemma select_missing names df :
  forallb (fun key => mem key (column_names df)) names = false ->
  exists key, In key names /\ select names df = Raise (KeyError key).
Proof.
  induction names as [|k names IH]; cbn [forallb select]; [discriminate|].
  destruct (mem k (column_names df)) eqn:Hk; cbn [andb].
  - intros Hrest. destruct (IH Hrest) as (key & Hin & Hsel).
    destruct (mem_lookup _ _ Hk) as [cells Hcells].
    unfold get_column. rewrite Hcells, Hsel.
    exists key. split; [now right|reflexivity].
  - intros _. unfold get_column.
    rewrite (no_mem_no_lookup _ _ Hk).
    exists k. split; [now left|reflexivity].
Qed.

End ColumnFacts.

Lemma assemble_returns_iff json_dumps location term st net log :
  page_dfs st = frames_of_log log ->
  (brings_json_columns log = true ->
   exists df, assemble json_dumps location term st net = (Ok df, net))
  /\ (brings_json_columns log = false ->
      exists key,
        In key JSON_COLUMNS
        /\ assemble json_dumps location term st net
           = (Raise (KeyError key), net)).
Proof.
  intros Hpages.
  unfold assemble, bind, lift, timestamp_utcnow, ret.
  destruct (match page_dfs st with
            | [] => Ok empty_frame
            | _ => concat (page_dfs st)
            end) as [pages|e] eqn:Hmake.
  2:{ destruct (page_dfs st); discriminate. }
  assert (Hsame : forallb (fun key => mem key (column_names pages))
                    JSON_COLUMNS
                  = brings_json_columns log).
  { unfold brings_json_columns, JSON_COLUMNS. cbn [forallb].
    rewrite !(ColumnFacts.pages_have _ _ _ Hmake), Hpages.
    now rewrite !ColumnFacts.log_frames_have by reflexivity. }
  unfold coerce_json_columns. split; intros Hlog; rewrite <- Hsame in Hlog.
  - destruct (ColumnFacts.select_all _ _ Hlog) as [sub ->]. now eexists.
  - destruct (ColumnFacts.select_missing _ _ Hlog) as (key & Hin & ->).
    now exists key.
Qed.

(** X17.  A search whose loop ends without raising returns a table if and
    only if each of [categories], [coordinates], [transactions] and
    [location] is a key of at least one business it received; otherwise
    it raises [KeyError] for one of them. *)
Theorem search_returns_iff (json_dumps : Cell -> string)
  (location : string) (term : option string) (net net' : Net)
  (st : LoopState) (new : list (string * Response)) :
  fetch_pages PAGE_BOUND (yelp_search_url location term) initial_state net
  = (Ok st, net') ->
  exchanges net' = new ++ exchanges net ->
  (brings_json_columns new = true ->
   exists df,
     yelp_location_search json_dumps location term net = (Ok df, net'))
  /\ (brings_json_columns new = false ->
      exists key,
        In key JSON_COLUMNS
        /\ yelp_location_search json_dumps location term net
           = (Raise (KeyError key), net')).
Proof.
  intros Hrun Hlog.
  destruct (fetch_pages_frames _ _ _ _ _ _ Hrun) as (new' & Hlog' & Hframes).
  rewrite Hlog in Hlog'. apply app_inv_tail in Hlog'. subst new'.
  cbn [page_dfs initial_state app] in Hframes.
  unfold yelp_location_search, bind. rewrite Hrun.
  now apply assemble_returns_iff.
Qed.

(** A page of businesses with all four keys, and a page of one business
    without [transactions]. *)
Lemma search_returns_iff_witness :
  (exists df,
      yelp_location_search Sample.json_dumps "Austin, TX" None Sample.thirty
      = (Ok df,
         answered (page_url_of (yelp_search_url "Austin, TX" None) 50 0)
           Sample.thirty))
  /\ (exists key,
         In key JSON_COLUMNS
         /\ yelp_location_search Sample.json_dumps "Austin, TX" None
              Scenario.one_closed
            = (Raise (KeyError key),
               answered (page_url_of (yelp_search_url "Austin, TX" None) 50 0)
                 Scenario.one_closed)).
Proof.
  split.
  - apply (proj1 (search_returns_iff Sample.json_dumps "Austin, TX" None
                    Sample.thirty _
                    (match fst (fetch_pages PAGE_BOUND
                                  (yelp_search_url "Austin, TX" None)
                                  initial_state Sample.thirty) with
                     | Ok st => st
                     | Raise _ => initial_state
                     end)
                    [(page_url_of (yelp_search_url "Austin, TX" None) 50 0,
                      Sample.page 30 30)]
                    ltac:(vm_compute; reflexivity) eq_refl)).
    vm_compute. reflexivity.
  - apply (proj2 (search_returns_iff Sample.json_dumps "Austin, TX" None
                    Scenario.one_closed _
                    (match fst (fetch_pages PAGE_BOUND
                                  (yelp_search_url "Austin, TX" None)
                                  initial_state Scenario.one_closed) with
                     | Ok st => st
                     | Raise _ => initial_state
                     end)
                    [(page_url_of (yelp_search_url "Austin, TX" None) 50 0,
                      next_response Scenario.one_closed)]
                    ltac:(vm_compute; reflexivity) eq_refl)).
    vm_compute. reflexivity.
Defined.

(* ================================================================== *)
(** ** The URL of each row *)

Lemma lookup_of_names {A : Type} (f : string -> A) key :
  forall names,
    mem key names = true ->
    lookup key (map (fun k => (k, f k)) names) = Some (f key).
Proof.
  induction names as [|k names IH]; cbn; [discriminate|].
  destruct (String.eqb_spec key k) as [->|]; [reflexivity|exact IH].
Qed.

Lemma flat_map_flat_map {A B C : Type} (f : A -> list B) (g : B -> list C)
  (l : list A) :
  flat_map g (flat_map f l) = flat_map (fun a => flat_map g (f a)) l.
Proof.
  induction l as [|a l IH]; cbn; [reflexivity|].
  now rewrite flat_map_app, IH.
Qed.

Lemma page_frame_urls page_url businesses :
  get_column "_page_url" (page_frame page_url businesses)
  = Some (repeat (CStr page_url) (length businesses)).
Proof. unfold page_frame, set_scalar. apply PandasFacts.get_set_same. Qed.

Lemma exchange_urls e :
  flat_map (fun df => match get_column "_page_url" df with
                      | Some cells => cells
                      | None => repeat CNaN (nrows df)
                      end) (frame_of_exchange e)
  = url_cells e.
Proof.
  unfold frame_of_exchange, url_cells.
  destruct (status_code (snd e) =? 200); [|reflexivity].
  destruct (search_result (text (snd e))) as [[total [|b bs]]|];
    try reflexivity.
  cbn [flat_map]. rewrite page_frame_urls. apply app_nil_r.
Qed.

Lemma frame_of_exchange_has_url e :
  forallb (fun df => mem "_page_url" (column_names df)) (frame_of_exchange e)
  = true.
Proof.
  unfold frame_of_exchange.
  destruct (status_code (snd e) =? 200); [|reflexivity].
  destruct (search_result (text (snd e))) as [[total [|b bs]]|];
    try reflexivity.
  cbn [forallb]. rewrite andb_true_r.
  unfold column_names, get_column.
  exact (PandasFacts.lookup_mem _ _ _ (page_frame_urls (fst e) (b :: bs))).
Qed.

Lemma concat_urls log pages :
  concat (frames_of_log log) = Ok pages ->
  get_column "_page_url" pages = Some (flat_map url_cells (rev log)).
Proof.
  unfold frames_of_log. intros Hcat.
  assert (Hurls :
            flat_map (fun df => match get_column "_page_url" df with
                                | Some cells => cells
                                | None => repeat CNaN (nrows df)
                                end) (flat_map frame_of_exchange (rev log))
            = flat_map url_cells (rev log)).
  { rewrite flat_map_flat_map. apply flat_map_ext. intros e.
    apply exchange_urls. }
  assert (Hhas : existsb (fun df => mem "_page_url" (column_names df))
                   (flat_map frame_of_exchange (rev log)) = true).
  { destruct (flat_map frame_of_exchange (rev log)) as [|p ps] eqn:Hframes;
      [discriminate|].
    assert (Hall : forallb (fun df => mem "_page_url" (column_names df))
                     (flat_map frame_of_exchange (rev log)) = true).
    { clear. induction (rev log) as [|e l IH]; cbn; [reflexivity|].
      now rewrite forallb_app, frame_of_exchange_has_url, IH. }
    rewrite Hframes in Hall. cbn [forallb] in Hall.
    apply andb_true_iff in Hall. cbn [existsb]. now rewrite (proj1 Hall). }
  destruct (flat_map frame_of_exchange (rev log)) as [|p ps] eqn:Hframes;
    [discriminate|].
  injection Hcat as <-. unfold get_column; cbn [columns].
  rewrite (lookup_of_names
             (fun k => flat_map (fun df => match get_column k df with
                                           | Some cells => cells
                                           | None => repeat CNaN (nrows df)
                                           end) (p :: ps))).
  - now rewrite Hurls.
  - rewrite ColumnFacts.mem_union_names.
    etransitivity; [|exact Hhas].
    exact (ColumnFacts.existsb_map column_names (mem "_page_url") (p :: ps)).
Qed.

(** X18.  In a table the search returns, [_page_url] holds for each row
    the URL of the page request that brought its business: the URLs of
    the requests in their order, each as many times as its response had
    businesses. *)
Theorem rows_carry_their_url (json_dumps : Cell -> string)
  (location : string) (term : option string) (net net' : Net)
  (df : DataFrame) (new : list (string * Response)) :
  yelp_location_search json_dumps location term net = (Ok df, net') ->
  exchanges net' = new ++ exchanges net ->
  get_column "_page_url" df = Some (flat_map url_cells (rev new)).
Proof.
  unfold yelp_location_search, bind. intros Hrun Hlog.
  destruct (fetch_pages PAGE_BOUND _ initial_state net) as [[st|e] net1]
    eqn:Hloop; [|discriminate].
  apply assemble_table in Hrun.
  destruct Hrun as (-> & _ & pages & Hcat & Htable).
  destruct (fetch_pages_frames _ _ _ _ _ _ Hloop) as (new' & Hlog' & Hframes).
  rewrite Hlog in Hlog'. apply app_inv_tail in Hlog'. subst new'.
  cbn [page_dfs initial_state app] in Hframes. rewrite Hframes in Hcat.
  destruct Htable as (_ & _ & _ & _ & _ & _ & _ & Hother).
  rewrite Hother by reflexivity.
  now apply concat_urls.
Qed.

(** The 30 rows of [Sample.thirty] carry the URL of the one request. *)
Lemma rows_carry_their_url_witness :
  get_column "_page_url" Sample.thirty_table
  = Some (flat_map url_cells
            (rev [(page_url_of (yelp_search_url "Austin, TX" None) 50 0,
                   Sample.page 30 30)])).
Proof.
  apply (rows_carry_their_url Sample.json_dumps "Austin, TX" None
           Sample.thirty
           (answered (page_url_of (yelp_search_url "Austin, TX" None) 50 0)
              Sample.thirty)).
  - vm_compute. reflexivity.
  - reflexivity.
Defined.

(* ================================================================== *)
(** ** A city that is already loaded *)

Lemma loaded_location_is_skipped {Con : Type} `{Connection Con}
  (json_dumps : Cell -> string) (location : string) (term : option string)
  (w : World) (df : DataFrame) :
  read_sql (loaded_query location (term_or_empty term)) (snd w) = Ok df ->
  empty df = false ->
  process_location json_dumps location term w = (Ok tt, w).
Proof.
  intros Hfound Hrows. unfold process_location. now rewrite Hfound, Hrows.
Qed.

(** X19.  When the store finds rows for every location the expander gives
    for a city and a term, the driver makes the probe for them and
    nothing else: no page request and no write. *)
Theorem loaded_city_costs_one_probe {Con : Type} `{Connection Con}
  (zip_db : list Zipcode) (json_dumps : Cell -> string) (city : string)
  (term : option string) (w : World) (locations : list string) (total : Z)
  (net' : Net) :
  yelp_city_locations zip_db city term (fst w)
  = (Ok (locations, total), net') ->
  (forall location,
      In location locations ->
      exists df,
        read_sql (loaded_query location (term_or_empty term)) (snd w) = Ok df
        /\ empty df = false) ->
  process_city_term zip_db json_dumps city term w = (Ok tt, (net', snd w))
  /\ net' = answered (yelp_search_url city term) (fst w).
Proof.
  intros Hexpand Hloaded. split.
  - unfold process_city_term. rewrite Hexpand.
    induction locations as [|location locations IH] in Hloaded |- *;
      [reflexivity|].
    cbn [for_each].
    destruct (Hloaded location (or_introl eq_refl)) as (df & Hfound & Hrows).
    rewrite (loaded_location_is_skipped json_dumps location term
               (net', snd w) df Hfound Hrows).
    apply IH. intros l Hin. apply Hloaded. now right.
  - pose proof (f_equal snd Hexpand) as Hnet. cbn [snd] in Hnet.
    rewrite <- Hnet. unfold yelp_city_locations, bind.
    destruct (yelp_expected_result_count city term (fst w))
      as [[n|e] net1] eqn:Hprobe.
    + assert (Hone : net1 = answered (yelp_search_url city term) (fst w)).
      { pose proof (f_equal snd Hprobe) as Hp. cbn [snd] in Hp.
        rewrite <- Hp. unfold yelp_expected_result_count, bind, requests_get.
        now destruct (status_code (next_response (fst w)) =? 200). }
      destruct (n >? 1000); [|exact Hone]. unfold lift, ret.
      destruct (index (split ", " city) 0); [|exact Hone].
      now destruct (index (split ", " city) 1).
    + pose proof (f_equal snd Hprobe) as Hp. cbn [snd] in Hp.
      rewrite <- Hp. unfold yelp_expected_result_count, bind, requests_get.
      now destruct (status_code (next_response (fst w)) =? 200).
Qed.

(** Austin, already in the store, on a second run. *)
Lemma loaded_city_costs_one_probe_witness :
  process_city_term Sample.zip_db Sample.json_dumps "Austin, TX" None
    (Sample.thirty, SampleStore.austin_loaded)
  = (Ok tt,
     (answered (yelp_search_url "Austin, TX" None) Sample.thirty,
      SampleStore.austin_loaded)).
Proof.
  apply (loaded_city_costs_one_probe Sample.zip_db Sample.json_dumps
           "Austin, TX" None (Sample.thirty, SampleStore.austin_loaded)
           ["Austin, TX"] 30).
  - reflexivity.
  - intros location [<-|[]]. exists SampleStore.one_row.
    split; reflexivity.
Defined.
